(** * LO_test_task: the in-memory task store and its orchestration layer

    A shallow embedding of
      - [internal/utils/validate]  (CheckTaskTitle, CheckTaskDescription),
      - [internal/app/repository]  (TaskRepository over map[int64]*models.Task),
      - [internal/app/usecase]     (TaskUsecase on top of the repository),
    together with the properties of the specification that concern them.

    Go strings are byte sequences: they are modelled by [string], whose
    characters are the bytes.  Tasks live behind pointers, so the program
    state is a heap of [Task] records plus the repository's map from IDs to
    heap locations; [time.Now] reads an external clock. *)

From Stdlib Require Import ZArith Lia List Ascii String.
From stdpp Require Import gmap strings list.

Open Scope Z_scope.

(** ** Strings, bytes and runes *)

Module utf8.

Definition RuneError : Z := 0xFFFD.

(** The bytes of a Go string. *)
Definition bytes (s : string) : list Z :=
  map (fun a => Z.of_N (N_of_ascii a)) (list_ascii_of_string s).

(** Continuation bytes lie in [locb, hicb]. *)
Definition locb : Z := 0x80.
Definition hicb : Z := 0xBF.

Definition between (lo hi b : Z) : bool := (lo <=? b) && (b <=? hi).

(** [utf8.DecodeRuneInString]: the first rune of [s] and its width in
    bytes.  Every ill-formed prefix decodes to [(RuneError, 1)]. *)
Definition DecodeRune (s : list Z) : Z * nat :=
  match s with
  | [] => (RuneError, 0%nat)
  | s0 :: rest =>
    if s0 <? 0x80 then (s0, 1%nat)
    else if (s0 <? 0xC2) || (0xF4 <? s0) then (RuneError, 1%nat)
    else if s0 <? 0xE0 then
      match rest with
      | s1 :: _ =>
        if between locb hicb s1
        then (Z.lor (Z.shiftl (Z.land s0 0x1F) 6) (Z.land s1 0x3F), 2%nat)
        else (RuneError, 1%nat)
      | _ => (RuneError, 1%nat)
      end
    else if s0 <? 0xF0 then
      let lo := if s0 =? 0xE0 then 0xA0 else locb in
      let hi := if s0 =? 0xED then 0x9F else hicb in
      match rest with
      | s1 :: s2 :: _ =>
        if between lo hi s1 && between locb hicb s2
        then (Z.lor (Z.shiftl (Z.land s0 0x0F) 12)
                (Z.lor (Z.shiftl (Z.land s1 0x3F) 6) (Z.land s2 0x3F)), 3%nat)
        else (RuneError, 1%nat)
      | _ => (RuneError, 1%nat)
      end
    else
      let lo := if s0 =? 0xF0 then 0x90 else locb in
      let hi := if s0 =? 0xF4 then 0x8F else hicb in
      match rest with
      | s1 :: s2 :: s3 :: _ =>
        if between lo hi s1 && between locb hicb s2 && between locb hicb s3
        then (Z.lor (Z.shiftl (Z.land s0 0x07) 18)
                (Z.lor (Z.shiftl (Z.land s1 0x3F) 12)
                   (Z.lor (Z.shiftl (Z.land s2 0x3F) 6) (Z.land s3 0x3F))), 4%nat)
        else (RuneError, 1%nat)
      | _ => (RuneError, 1%nat)
      end
  end.

(** Decoding rune after rune; each step consumes at least one byte, so
    [length s] steps always reach the end of [s]. *)
Fixpoint decode_all (fuel : nat) (s : list Z) : list Z :=
  match fuel with
  | O => []
  | S fuel' =>
    match s with
    | [] => []
    | _ => let '(r, n) := DecodeRune s in r :: decode_all fuel' (drop n s)
    end
  end.

Definition runes (s : string) : list Z :=
  decode_all (List.length (bytes s)) (bytes s).

Definition RuneCountInString (s : string) : Z :=
  Z.of_nat (List.length (runes s)).

End utf8.

(** ** internal/utils/errs *)

Module errs.

Inductive sentinel := ErrTaskNotFound | ErrInvalidID | ErrValidation.

(** An error value is a sentinel, possibly wrapped by
    [fmt.Errorf("%w: ...")] with a detail message. *)
Inductive error :=
| Plain (s : sentinel)
| Wrapf (s : sentinel) (detail : string).

Definition sentinel_eqb (a b : sentinel) : bool :=
  match a, b with
  | ErrTaskNotFound, ErrTaskNotFound
  | ErrInvalidID, ErrInvalidID
  | ErrValidation, ErrValidation => true
  | _, _ => false
  end.

(** [errors.Is] *)
Definition Is (e : error) (s : sentinel) : bool :=
  match e with
  | Plain s' | Wrapf s' _ => sentinel_eqb s' s
  end.

End errs.

(** ** internal/utils/validate *)

Module validate.
Import errs.

Definition MaxTaskTitleLength : Z := 200.
Definition MinTaskTitleLength : Z := 3.
Definition MaxTaskDescriptionLength : Z := 5000.

(** The character class of [taskTitleRegex],
    [[A-Za-z0-9А-Яа-я\s.,!?-]], as inclusive rune ranges; [\s] is
    [[\t\n\f\r ]] and the final [-] is literal. *)
Definition taskTitleClass : list (Z * Z) :=
  [ (0x41, 0x5A); (0x61, 0x7A); (0x30, 0x39);
    (0x410, 0x42F); (0x430, 0x44F);
    (0x09, 0x0A); (0x0C, 0x0D); (0x20, 0x20);
    (0x2E, 0x2E); (0x2C, 0x2C); (0x21, 0x21); (0x3F, 0x3F); (0x2D, 0x2D) ].

Definition in_class (cls : list (Z * Z)) (r : Z) : bool :=
  existsb (fun '(lo, hi) => utf8.between lo hi r) cls.

(** [taskTitleRegex.MatchString]: the pattern is [^[class]+$], one or
    more runes of the class and nothing else. *)
Definition taskTitleRegex_MatchString (s : string) : bool :=
  match utf8.runes s with
  | [] => false
  | rs => forallb (in_class taskTitleClass) rs
  end.

Definition CheckTaskTitle (title : string) : option error :=
  if decide (title = EmptyString) then
    Some (Wrapf ErrValidation "task title cannot be empty")
  else
    let length := utf8.RuneCountInString title in
    if length <? MinTaskTitleLength then
      Some (Wrapf ErrValidation "task title must be at least 3 characters")
    else if length >? MaxTaskTitleLength then
      Some (Wrapf ErrValidation "task title cannot be longer than 200 characters")
    else if negb (taskTitleRegex_MatchString title) then
      Some (Wrapf ErrValidation "task title contains invalid characters")
    else None.

Definition CheckTaskDescription (description : string) : option error :=
  let length := utf8.RuneCountInString description in
  if length >? MaxTaskDescriptionLength then
    Some (Wrapf ErrValidation
            "task description cannot be longer than 5000 characters")
  else None.

End validate.

(** ** internal/app/models *)

Module models.

Definition TaskStatus := string.

Definition StatusPending : TaskStatus := "pending".
Definition StatusInProgress : TaskStatus := "in_progress".
Definition StatusCompleted : TaskStatus := "completed".

(** [time.Time] values are nanoseconds since the Unix epoch. *)
Definition Time := Z.

Record Task := mkTask {
  ID : Z;
  Title : string;
  Description : string;
  Status : TaskStatus;
  CreatedAt : Time;
  UpdatedAt : Time
}.

Definition with_Title (v : string) (t : Task) : Task :=
  mkTask (ID t) v (Description t) (Status t) (CreatedAt t) (UpdatedAt t).
Definition with_Description (v : string) (t : Task) : Task :=
  mkTask (ID t) (Title t) v (Status t) (CreatedAt t) (UpdatedAt t).
Definition with_Status (v : TaskStatus) (t : Task) : Task :=
  mkTask (ID t) (Title t) (Description t) v (CreatedAt t) (UpdatedAt t).
Definition with_CreatedAt (v : Time) (t : Task) : Task :=
  mkTask (ID t) (Title t) (Description t) (Status t) v (UpdatedAt t).
Definition with_UpdatedAt (v : Time) (t : Task) : Task :=
  mkTask (ID t) (Title t) (Description t) (Status t) (CreatedAt t) v.

End models.

Import errs models.

(** ** Program state and effects *)

(** A [*models.Task] is a heap location. *)
Definition loc := positive.

(** The heap of task objects, the repository's [tasks] map, and the number
    of [time.Now] readings taken so far. *)
Record World := mkWorld {
  heap : gmap loc Task;
  tasks : gmap Z loc;
  ticks : nat
}.

(** The outcome of a call: a value, a returned error, or a run-time panic
    (dereferencing a pointer to no object). *)
Inductive result (A : Type) :=
| Ok (a : A)
| Err (e : error)
| Panic.
Arguments Ok {A} a.
Arguments Err {A} e.
Arguments Panic {A}.

(** Computations thread the world; an error does not roll it back. *)
Definition M (A : Type) := World -> result A * World.

Definition ret {A} (a : A) : M A := fun w => (Ok a, w).
Definition fail {A} (e : error) : M A := fun w => (Err e, w).
Definition bind {A B} (m : M A) (k : A -> M B) : M B :=
  fun w =>
    match m w with
    | (Ok a, w') => k a w'
    | (Err e, w') => (Err e, w')
    | (Panic, w') => (Panic, w')
    end.

Notation "'let*' x ':=' m 'in' k" := (bind m (fun x => k))
  (at level 10, x name, m at level 100, k at level 200).
Notation "'exec' m 'in' k" := (bind m (fun _ => k))
  (at level 10, m at level 100, k at level 200).

(** [*p] *)
Definition load (p : loc) : M Task :=
  fun w =>
    match heap w !! p with
    | Some t => (Ok t, w)
    | None => (Panic, w)
    end.

(** [p.field = v], as an update of the object behind [p] *)
Definition modify (p : loc) (f : Task -> Task) : M unit :=
  fun w =>
    match heap w !! p with
    | Some t => (Ok tt, mkWorld (<[p := f t]> (heap w)) (tasks w) (ticks w))
    | None => (Panic, w)
    end.

(** [&models.Task{...}] *)
Definition new (t : Task) : M loc :=
  fun w =>
    let p := fresh (dom (heap w)) in
    (Ok p, mkWorld (<[p := t]> (heap w)) (tasks w) (ticks w)).

(** [int64] wrap-around and Go's truncating division. *)
Definition wrap64 (z : Z) : Z := (z + 2 ^ 63) mod 2 ^ 64 - 2 ^ 63.
Definition UnixNano (t : Time) : Z := wrap64 t.
Definition Millisecond : Z := 1000000.

Definition init : World := mkWorld ∅ ∅ 0.

(** ** internal/app: the repository interface *)

Module app.

Record TaskRepository := {
  CreateTask : loc -> M loc;
  GetTaskByID : Z -> M loc;
  GetAllTasks : TaskStatus -> M (list loc);
  UpdateTask : loc -> M loc;
  DeleteTask : Z -> M unit
}.

End app.

(** [time.Now], for a clock whose [n]-th reading is [clock n]. *)
Definition time_Now (clock : nat -> Time) : M Time :=
  fun w => (Ok (clock (ticks w)), mkWorld (heap w) (tasks w) (S (ticks w))).

(** ** internal/app/repository *)

Module repository.
Section Env.

Variable clock : nat -> Time.

(** The order in which [range r.tasks] walks the map: some enumeration
    of its entries. *)
Variable range : gmap Z loc -> list (Z * loc).

(** [r.tasks[id]] with the comma-ok form *)
Definition map_get (id : Z) : M (option loc) :=
  fun w => (Ok (tasks w !! id), w).

(** [r.tasks[id] = p] *)
Definition map_set (id : Z) (p : loc) : M unit :=
  fun w => (Ok tt, mkWorld (heap w) (<[id := p]> (tasks w)) (ticks w)).

(** [delete(r.tasks, id)] *)
Definition map_delete (id : Z) : M unit :=
  fun w => (Ok tt, mkWorld (heap w) (delete id (tasks w)) (ticks w)).

Definition CreateTask (task : loc) : M loc :=
  let* t := load task in
  if ID t <? 0 then fail (Plain ErrInvalidID)
  else
    let* now := time_Now clock in
    exec modify task (with_CreatedAt now) in
    exec modify task (with_UpdatedAt now) in
    let* t' := load task in
    exec map_set (ID t') task in
    ret task.

Definition GetTaskByID (id : Z) : M loc :=
  let* o := map_get id in
  match o with
  | None => fail (Plain ErrTaskNotFound)
  | Some task => ret task
  end.

(** The body of the [for _, task := range r.tasks] loop of GetAllTasks,
    over the entries still to visit; [acc] is the slice built so far. *)
Fixpoint GetAllTasks_loop (statusFilter : TaskStatus)
    (entries : list (Z * loc)) (acc : list loc) : M (list loc) :=
  match entries with
  | [] => ret acc
  | (_, task) :: rest =>
    if decide (statusFilter = EmptyString) then
      GetAllTasks_loop statusFilter rest (acc ++ [task])
    else
      let* t := load task in
      if decide (Status t = statusFilter) then
        GetAllTasks_loop statusFilter rest (acc ++ [task])
      else GetAllTasks_loop statusFilter rest acc
  end.

Definition GetAllTasks (statusFilter : TaskStatus) : M (list loc) :=
  fun w => GetAllTasks_loop statusFilter (range (tasks w)) [] w.

Definition UpdateTask (task : loc) : M loc :=
  let* t := load task in
  let* o := map_get (ID t) in
  match o with
  | None => fail (Plain ErrTaskNotFound)
  | Some existingTask =>
    let* t1 := load task in
    exec modify existingTask (with_Title (Title t1)) in
    let* t2 := load task in
    exec modify existingTask (with_Description (Description t2)) in
    let* t3 := load task in
    exec modify existingTask (with_Status (Status t3)) in
    let* now := time_Now clock in
    exec modify existingTask (with_UpdatedAt now) in
    ret existingTask
  end.

Definition DeleteTask (id : Z) : M unit :=
  let* o := map_get id in
  match o with
  | None => fail (Plain ErrTaskNotFound)
  | Some _ =>
    exec map_delete id in
    ret tt
  end.

(** [*TaskRepository] as an [app.TaskRepository] *)
Definition TaskRepository : app.TaskRepository :=
  {| app.CreateTask := CreateTask;
     app.GetTaskByID := GetTaskByID;
     app.GetAllTasks := GetAllTasks;
     app.UpdateTask := UpdateTask;
     app.DeleteTask := DeleteTask |}.

End Env.
End repository.

(** ** internal/app/usecase *)

Module usecase.
Section Env.

Variable clock : nat -> Time.

(** [u.taskRepository] *)
Variable taskRepository : app.TaskRepository.

Definition CreateTask (title description : string) : M loc :=
  match validate.CheckTaskTitle title with
  | Some err => fail err
  | None =>
    match validate.CheckTaskDescription description with
    | Some err => fail err
    | None =>
      let* t_id := time_Now clock in
      let* t_created := time_Now clock in
      let* t_updated := time_Now clock in
      let* task := new (mkTask (Z.quot (UnixNano t_id) Millisecond)
                          title description StatusPending
                          t_created t_updated) in
      let* createdTask := app.CreateTask taskRepository task in
      ret createdTask
    end
  end.

Definition GetTask (id : Z) : M loc :=
  let* task := app.GetTaskByID taskRepository id in
  ret task.

Definition ListTasks (statusFilter : TaskStatus) : M (list loc) :=
  let* tasks := app.GetAllTasks taskRepository statusFilter in
  ret tasks.

Definition UpdateTask (id : Z) (newTitle newDescription : string)
    (status : TaskStatus) : M loc :=
  let* existingTask := app.GetTaskByID taskRepository id in
  exec (if decide (newTitle <> EmptyString) then
          match validate.CheckTaskTitle newTitle with
          | Some err => fail err
          | None => modify existingTask (with_Title newTitle)
          end
        else ret tt) in
  exec (if decide (newDescription <> EmptyString) then
          match validate.CheckTaskDescription newDescription with
          | Some err => fail err
          | None => modify existingTask (with_Description newDescription)
          end
        else ret tt) in
  exec (if decide (status <> EmptyString) then
          modify existingTask (with_Status status)
        else ret tt) in
  let* now := time_Now clock in
  exec modify existingTask (with_UpdatedAt now) in
  let* updatedTask := app.UpdateTask taskRepository existingTask in
  ret updatedTask.

Definition DeleteTask (id : Z) : M unit :=
  exec app.DeleteTask taskRepository id in
  ret tt.

End Env.
End usecase.

(** ** The service: requests as the transport layer issues them *)

Inductive request :=
| ReqCreate (title description : string)
| ReqGet (id : Z)
| ReqList (statusFilter : TaskStatus)
| ReqUpdate (id : Z) (title description : string) (status : TaskStatus)
| ReqDelete (id : Z).

Section Service.

Variable clock : nat -> Time.
Variable range : gmap Z loc -> list (Z * loc).

(** [main] wires the use case to the in-memory repository. *)
Definition repo : app.TaskRepository := repository.TaskRepository clock range.

Definition createTask := usecase.CreateTask clock repo.
Definition getTask := usecase.GetTask repo.
Definition listTasks := usecase.ListTasks repo.
Definition updateTask := usecase.UpdateTask clock repo.
Definition deleteTask := usecase.DeleteTask repo.

(** The world after serving one request. *)
Definition serve (r : request) (w : World) : World :=
  match r with
  | ReqCreate title description => snd (createTask title description w)
  | ReqGet id => snd (getTask id w)
  | ReqList statusFilter => snd (listTasks statusFilter w)
  | ReqUpdate id title description status =>
      snd (updateTask id title description status w)
  | ReqDelete id => snd (deleteTask id w)
  end.

Definition run (rs : list request) (w : World) : World :=
  fold_left (fun w r => serve r w) rs w.

(** The ID a task created in world [w] receives. *)
Definition next_id (w : World) : Z :=
  Z.quot (UnixNano (clock (ticks w))) Millisecond.

End Service.

(** The task that UpdateTask merges from the stored [t] and the request. *)
Definition merged (t : Task) (newTitle newDescription : string)
    (status : TaskStatus) (now : Time) : Task :=
  mkTask (ID t)
    (if decide (newTitle = EmptyString) then Title t else newTitle)
    (if decide (newDescription = EmptyString) then Description t
     else newDescription)
    (if decide (status = EmptyString) then Status t else status)
    (CreatedAt t) now.

(** ** Invariants of the state *)

(** Task [t] is the object behind the pointer stored under [id]. *)
Definition stored (w : World) (id : Z) (p : loc) (t : Task) : Prop :=
  tasks w !! id = Some p /\ heap w !! p = Some t.

(** Every stored pointer refers to a task object, and that object carries
    the ID it is stored under. *)
Definition wf (w : World) : Prop :=
  forall id p, tasks w !! id = Some p ->
    exists t, heap w !! p = Some t /\ ID t = id.

Definition ids_nonneg (w : World) : Prop :=
  forall id p, tasks w !! id = Some p -> 0 <= id.

(** No stored task was updated before it was created, nor created after
    the clock's next reading. *)
Definition timely (clock : nat -> Time) (w : World) : Prop :=
  forall id p t, stored w id p t ->
    CreatedAt t <= UpdatedAt t /\ CreatedAt t <= clock (ticks w).

Definition monotone (clock : nat -> Time) : Prop :=
  forall n, clock n <= clock (S n).

(** A time from the Unix epoch up to the last nanosecond an [int64] can
    count. *)
Definition in_epoch (t : Time) : Prop := 0 <= t < 2 ^ 63.

(** The invariant of the running service. *)
Definition good (clock : nat -> Time) (w : World) : Prop :=
  wf w /\ ids_nonneg w /\ timely clock w.

Section TransitionDef.

Variable clock : nat -> Time.

(** The ways in which serving one request can change a well-formed
    world. *)
Inductive transition (w : World) : World -> Prop :=
| T_same : transition w w
| T_create t :
    0 <= ID t ->
    CreatedAt t = clock (3 + ticks w)%nat ->
    UpdatedAt t = clock (3 + ticks w)%nat ->
    transition w
      (mkWorld (<[fresh (dom (heap w)) := t]> (heap w))
               (<[ID t := fresh (dom (heap w))]> (tasks w))
               (4 + ticks w)%nat)
| T_alloc t :
    transition w
      (mkWorld (<[fresh (dom (heap w)) := t]> (heap w)) (tasks w)
               (3 + ticks w)%nat)
| T_title id p t title :
    stored w id p t ->
    transition w
      (mkWorld (<[p := with_Title title t]> (heap w)) (tasks w) (ticks w))
| T_update id p t t' :
    stored w id p t ->
    ID t' = ID t -> CreatedAt t' = CreatedAt t ->
    UpdatedAt t' = clock (S (ticks w)) ->
    transition w
      (mkWorld (<[p := t']> (heap w)) (tasks w) (S (S (ticks w))))
| T_delete id :
    transition w (mkWorld (heap w) (delete id (tasks w)) (ticks w)).

End TransitionDef.

(** Whether the loop of GetAllTasks keeps the task behind [p]. *)
Definition selected (w : World) (statusFilter : TaskStatus) (p : loc) : bool :=
  if decide (statusFilter = EmptyString) then true
  else match heap w !! p with
       | Some t => bool_decide (Status t = statusFilter)
       | None => false
       end.

(** CreateTask, called in world [w], returns an error that is
    ErrValidation. *)
Definition rejected (clock : nat -> Time) (range : gmap Z loc -> list (Z * loc))
    (w : World) (title description : string) : Prop :=
  exists e, fst (createTask clock range title description w) = Err e /\
            Is e ErrValidation = true.

(** A rune of the alphabet the title pattern admits. *)
Definition title_rune (r : Z) : Prop :=
  validate.in_class validate.taskTitleClass r = true.

(** The alphabet the code admits, spelled out: Latin letters A to Z and
    a to z, digits, the Cyrillic letters U+0410 to U+044F, tab, line feed,
    form feed, carriage return, space, and [. , ! ? -]. *)
Definition admitted_title_rune (r : Z) : Prop :=
  0x41 <= r <= 0x5A \/ 0x61 <= r <= 0x7A \/ 0x30 <= r <= 0x39 \/
  0x410 <= r <= 0x44F \/
  r = 0x09 \/ r = 0x0A \/ r = 0x0C \/ r = 0x0D \/ r = 0x20 \/
  r = 0x2E \/ r = 0x2C \/ r = 0x21 \/ r = 0x3F \/ r = 0x2D.

(** The alphabet of titles as the specification words it: Latin and
    Cyrillic letters, digits, white space and [. , ! ? -].  The Cyrillic
    letters are read as those of the Russian alphabet, [Ё] (U+0401) and
    [ё] (U+0451) among them, and white space as the ASCII white space,
    U+0009 to U+000D and the space. *)
Definition worded_title_rune (r : Z) : Prop :=
  0x41 <= r <= 0x5A \/ 0x61 <= r <= 0x7A \/ 0x30 <= r <= 0x39 \/
  0x410 <= r <= 0x44F \/ r = 0x401 \/ r = 0x451 \/
  0x09 <= r <= 0x0D \/ r = 0x20 \/
  r = 0x2E \/ r = 0x2C \/ r = 0x21 \/ r = 0x3F \/ r = 0x2D.

(** When CreateTask is to fail with ErrValidation, with the alphabet so
    worded. *)
Definition worded_rejection (title description : string) : Prop :=
  title = EmptyString \/
  utf8.RuneCountInString title < 3 \/
  utf8.RuneCountInString title > 200 \/
  (exists r, In r (utf8.runes title) /\ ~ worded_title_rune r) \/
  utf8.RuneCountInString description > 5000.

(** ** A concrete service state, used in the examples *)

Definition demo_clock (n : nat) : Time :=
  1700000000000000000 + 1000 * Z.of_nat n.

Definition demo_task : Task :=
  mkTask 7 "Write report" "First draft" StatusPending 50 60.

Definition demo_world : World :=
  mkWorld {[ 1%positive := demo_task ]} {[ 7 := 1%positive ]} 0.

Fixpoint repeat_string (n : nat) (s : string) : string :=
  match n with
  | O => EmptyString
  | S n' => (s ++ repeat_string n' s)%string
  end.

(** A description of 5001 runes. *)
Definition long_description : string := repeat_string (Z.to_nat 5001) "a".

(** ** strconv.ParseInt with base 10 and bit size 64 *)

Module strconv.

(** The value of a decimal digit; any other byte is a syntax error. *)
Definition digit (c : ascii) : option Z :=
  let b := Z.of_N (N_of_ascii c) in
  if (48 <=? b) && (b <=? 57) then Some (b - 48) else None.

(** The digits of [s] read after the value [n]. *)
Fixpoint digits (s : string) (n : Z) : option Z :=
  match s with
  | EmptyString => Some n
  | String c rest =>
    match digit c with
    | Some d => digits rest (n * 10 + d)
    | None => None
    end
  end.

(** [ParseInt(s, 10, 64)]: [None] stands for a returned error, be it of
    syntax or of range. *)
Definition ParseInt (s : string) : option Z :=
  match s with
  | EmptyString => None
  | String c rest =>
    let neg := Ascii.eqb c "-" in
    let s' := if Ascii.eqb c "+" || neg then rest else s in
    match s' with
    | EmptyString => None
    | _ =>
      match digits s' 0 with
      | None => None
      | Some un =>
        if negb neg && (2 ^ 63 <=? un) then None
        else if neg && (2 ^ 63 <? un) then None
        else Some (if neg then - un else un)
      end
    end
  end.

End strconv.

(** ** The text of an error value *)

Definition sentinel_text (s : sentinel) : string :=
  match s with
  | ErrTaskNotFound => "task not found"
  | ErrInvalidID => "invalid task ID"
  | ErrValidation => "validation error"
  end.

(** [err.Error()] *)
Definition Error (e : error) : string :=
  match e with
  | Plain s => sentinel_text s
  | Wrapf s detail => (sentinel_text s ++ ": " ++ detail)%string
  end.

(** ** internal/app: the use case interface and the request shapes *)

Module CreateTaskRequest.
Record t := mk { Title : string; Description : string }.
End CreateTaskRequest.

Module UpdateTaskRequest.
Record t := mk { Title : string; Description : string; Status : TaskStatus }.
End UpdateTaskRequest.

Module app_usecase.

Record TaskUsecase := {
  CreateTask : string -> string -> M loc;
  GetTask : Z -> M loc;
  ListTasks : TaskStatus -> M (list loc);
  UpdateTask : Z -> string -> string -> TaskStatus -> M loc;
  DeleteTask : Z -> M unit
}.

End app_usecase.

(** ** internal/app/delivery *)

Module delivery.

(** What a handler writes: the status code and the body, which is the
    text given to [http.Error], the task or the tasks handed to the JSON
    encoder, or nothing. *)
Inductive body :=
| Text (msg : string)
| JSONTask (t : Task)
| JSONTasks (ts : list Task)
| NoBody.

Record response := mkResponse { code : Z; content : body }.

Definition StatusOK : Z := 200.
Definition StatusCreated : Z := 201.
Definition StatusNoContent : Z := 204.
Definition StatusBadRequest : Z := 400.
Definition StatusNotFound : Z := 404.
Definition StatusInternalServerError : Z := 500.

(** [http.Error] *)
Definition http_Error (error : string) (code : Z) : response :=
  mkResponse code (Text error).

Definition respondWithError (err : error) : response :=
  if Is err ErrTaskNotFound then http_Error (Error err) StatusNotFound
  else if Is err ErrInvalidID then http_Error (Error err) StatusBadRequest
  else if Is err ErrValidation then http_Error (Error err) StatusBadRequest
  else http_Error "internal server error" StatusInternalServerError.

(** [v, err := m; if err != nil { failed } ; ok] *)
Definition try {A B} (m : M A) (ok : A -> M B) (failed : error -> M B) : M B :=
  fun w =>
    match m w with
    | (Ok a, w') => ok a w'
    | (Err e, w') => failed e w'
    | (Panic, w') => (Panic, w')
    end.

(** The tasks behind a slice of pointers, as the encoder reads them. *)
Fixpoint load_all (ps : list loc) : M (list Task) :=
  match ps with
  | [] => ret []
  | p :: rest =>
    let* t := load p in
    let* ts := load_all rest in
    ret (t :: ts)
  end.

Section Env.

(** [d.taskUsecase] *)
Variable taskUsecase : app_usecase.TaskUsecase.

(** [body] is what decoding the request body gave, [None] for a decoding
    error. *)
Definition CreateTask (body : option CreateTaskRequest.t) : M response :=
  match body with
  | None => ret (http_Error "invalid request body" StatusBadRequest)
  | Some req =>
    try (app_usecase.CreateTask taskUsecase
           (CreateTaskRequest.Title req) (CreateTaskRequest.Description req))
      (fun task =>
         let* t := load task in
         ret (mkResponse StatusCreated (JSONTask t)))
      (fun err => ret (respondWithError err))
  end.

(** [idStr] is the path value [id]. *)
Definition GetTask (idStr : string) : M response :=
  match strconv.ParseInt idStr with
  | None => ret (http_Error "invalid task ID" StatusBadRequest)
  | Some id =>
    try (app_usecase.GetTask taskUsecase id)
      (fun task =>
         let* t := load task in
         ret (mkResponse StatusOK (JSONTask t)))
      (fun err => ret (respondWithError err))
  end.

(** [status] is the query parameter [status], empty when absent. *)
Definition ListTasks (status : string) : M response :=
  try (app_usecase.ListTasks taskUsecase status)
    (fun tasks =>
       let* ts := load_all tasks in
       ret (mkResponse StatusOK (JSONTasks ts)))
    (fun err => ret (respondWithError err)).

Definition UpdateTask (idStr : string) (body : option UpdateTaskRequest.t)
    : M response :=
  match strconv.ParseInt idStr with
  | None => ret (http_Error "invalid task ID" StatusBadRequest)
  | Some id =>
    match body with
    | None => ret (http_Error "invalid request body" StatusBadRequest)
    | Some req =>
      try (app_usecase.UpdateTask taskUsecase id
             (UpdateTaskRequest.Title req) (UpdateTaskRequest.Description req)
             (UpdateTaskRequest.Status req))
        (fun task =>
           let* t := load task in
           ret (mkResponse StatusOK (JSONTask t)))
        (fun err => ret (respondWithError err))
    end
  end.

Definition DeleteTask (idStr : string) : M response :=
  match strconv.ParseInt idStr with
  | None => ret (http_Error "invalid task ID" StatusBadRequest)
  | Some id =>
    try (app_usecase.DeleteTask taskUsecase id)
      (fun _ => ret (mkResponse StatusNoContent NoBody))
      (fun err => ret (respondWithError err))
  end.

End Env.
End delivery.

(** ** The handlers over the use case and the in-memory repository *)

Section Server.

Variable clock : nat -> Time.
Variable range : gmap Z loc -> list (Z * loc).

(** [usecase.CreateTaskUsecase(repo)] as an [app.TaskUsecase] *)
Definition uc : app_usecase.TaskUsecase :=
  {| app_usecase.CreateTask := createTask clock range;
     app_usecase.GetTask := getTask clock range;
     app_usecase.ListTasks := listTasks clock range;
     app_usecase.UpdateTask := updateTask clock range;
     app_usecase.DeleteTask := deleteTask clock range |}.

Definition postTasks := delivery.CreateTask uc.
Definition getTaskByPath := delivery.GetTask uc.
Definition getTasks := delivery.ListTasks uc.
Definition putTask := delivery.UpdateTask uc.
Definition deleteTaskByPath := delivery.DeleteTask uc.

(** Allocating each task of [ts] and handing it to Repository.CreateTask,
    one after another, stopping at the first error. *)
Fixpoint create_each (ts : list Task) : M unit :=
  match ts with
  | [] => ret tt
  | t :: rest =>
    let* p := new t in
    exec repository.CreateTask clock p in
    create_each rest
  end.

End Server.

(** Every stored task was last updated no later than the clock's next
    reading. *)
Definition stamped (clock : nat -> Time) (w : World) : Prop :=
  forall id p t, stored w id p t -> UpdatedAt t <= clock (ticks w).

(** ** Lemmas on the repository *)

Ltac mstep :=
  unfold bind, ret, fail, load, modify, new, time_Now,
    repository.map_get, repository.map_set, repository.map_delete;
  cbn [heap tasks ticks fst snd].

Ltac mlook :=
  repeat match goal with
  | |- context [<[?k := _]> _ !! ?k] => rewrite lookup_insert_eq
  | H : ?m !! ?k = _ |- context [?m !! ?k] => rewrite H
  | |- context [<[?k := _]> _ !! ?k'] =>
      rewrite lookup_insert_ne by congruence
  end.

Ltac mrun := repeat (progress (mstep; mlook)).

Section RepositoryFacts.

Variable clock : nat -> Time.
Variable range : gmap Z loc -> list (Z * loc).

Lemma repository_CreateTask_invalid w task t :
  heap w !! task = Some t -> ID t < 0 ->
  repository.CreateTask clock task w = (Err (Plain ErrInvalidID), w).
Proof.
  intros Ht Hneg. unfold repository.CreateTask. mstep. rewrite Ht.
  destruct (Z.ltb_spec (ID t) 0); [reflexivity | lia].
Qed.

Lemma repository_CreateTask_ok w task t :
  heap w !! task = Some t -> 0 <= ID t ->
  repository.CreateTask clock task w =
    (Ok task,
     mkWorld (<[task := mkTask (ID t) (Title t) (Description t) (Status t)
                          (clock (ticks w)) (clock (ticks w))]> (heap w))
             (<[ID t := task]> (tasks w))
             (S (ticks w))).
Proof.
  intros Ht Hpos. unfold repository.CreateTask. mstep. rewrite Ht.
  destruct (Z.ltb_spec (ID t) 0); [lia |].
  mstep. rewrite Ht. mstep. rewrite lookup_insert_eq. mstep.
  rewrite lookup_insert_eq. cbn. rewrite !insert_insert_eq. reflexivity.
Qed.

Lemma repository_GetTaskByID_found w id p :
  tasks w !! id = Some p -> repository.GetTaskByID id w = (Ok p, w).
Proof. intros H. unfold repository.GetTaskByID. mstep. now rewrite H. Qed.

Lemma repository_GetTaskByID_absent w id :
  tasks w !! id = None ->
  repository.GetTaskByID id w = (Err (Plain ErrTaskNotFound), w).
Proof. intros H. unfold repository.GetTaskByID. mstep. now rewrite H. Qed.

Lemma repository_UpdateTask_absent w task t :
  heap w !! task = Some t -> tasks w !! ID t = None ->
  repository.UpdateTask clock task w = (Err (Plain ErrTaskNotFound), w).
Proof.
  intros Ht H. unfold repository.UpdateTask. mstep. rewrite Ht. mstep.
  now rewrite H.
Qed.

Lemma repository_UpdateTask_ok w task t e te :
  heap w !! task = Some t -> tasks w !! ID t = Some e ->
  heap w !! e = Some te ->
  repository.UpdateTask clock task w =
    (Ok e,
     mkWorld (<[e := mkTask (ID te) (Title t) (Description t) (Status t)
                       (CreatedAt te) (clock (ticks w))]> (heap w))
             (tasks w) (S (ticks w))).
Proof.
  intros Ht He Hte. unfold repository.UpdateTask.
  destruct (decide (task = e)) as [->|Hne].
  - assert (t = te) by congruence. subst te.
    mrun. cbn. rewrite !insert_insert_eq. reflexivity.
  - mrun. cbn. rewrite !insert_insert_eq. reflexivity.
Qed.

Lemma repository_DeleteTask_found w id p :
  tasks w !! id = Some p ->
  repository.DeleteTask id w =
    (Ok tt, mkWorld (heap w) (delete id (tasks w)) (ticks w)).
Proof. intros H. unfold repository.DeleteTask. mstep. now rewrite H. Qed.

Lemma repository_DeleteTask_absent w id :
  tasks w !! id = None ->
  repository.DeleteTask id w = (Err (Plain ErrTaskNotFound), w).
Proof. intros H. unfold repository.DeleteTask. mstep. now rewrite H. Qed.

End RepositoryFacts.


(** ** Lemmas on the use cases *)

Lemma bind_Ok {A B} (m : M A) (k : A -> M B) w a w' :
  m w = (Ok a, w') -> bind m k w = k a w'.
Proof. intros H. unfold bind. now rewrite H. Qed.

Lemma bind_Err {A B} (m : M A) (k : A -> M B) w e w' :
  m w = (Err e, w') -> bind m k w = (Err e, w').
Proof. intros H. unfold bind. now rewrite H. Qed.

Lemma world_eta w : mkWorld (heap w) (tasks w) (ticks w) = w.
Proof. now destruct w. Qed.

Section UsecaseFacts.

Variable clock : nat -> Time.
Variable range : gmap Z loc -> list (Z * loc).

Lemma createTask_title_err w title description e :
  validate.CheckTaskTitle title = Some e ->
  createTask clock range title description w = (Err e, w).
Proof.
  intros H. unfold createTask, usecase.CreateTask. now rewrite H.
Qed.

Lemma createTask_description_err w title description e :
  validate.CheckTaskTitle title = None ->
  validate.CheckTaskDescription description = Some e ->
  createTask clock range title description w = (Err e, w).
Proof.
  intros H1 H2. unfold createTask, usecase.CreateTask. now rewrite H1, H2.
Qed.

Lemma createTask_ok w title description :
  validate.CheckTaskTitle title = None ->
  validate.CheckTaskDescription description = None ->
  0 <= next_id clock w ->
  createTask clock range title description w =
    (Ok (fresh (dom (heap w))),
     mkWorld (<[fresh (dom (heap w)) :=
                 mkTask (next_id clock w) title description StatusPending
                   (clock (3 + ticks w)%nat) (clock (3 + ticks w)%nat)]>
                (heap w))
             (<[next_id clock w := fresh (dom (heap w))]> (tasks w))
             (4 + ticks w)%nat).
Proof.
  intros H1 H2 Hid. unfold createTask, usecase.CreateTask.
  rewrite H1, H2. unfold repo. cbn [app.CreateTask repository.TaskRepository].
  mstep.
  erewrite repository_CreateTask_ok;
    [| cbn [heap]; apply lookup_insert_eq | exact Hid].
  cbn. rewrite insert_insert_eq. reflexivity.
Qed.

Lemma createTask_invalid_id w title description :
  validate.CheckTaskTitle title = None ->
  validate.CheckTaskDescription description = None ->
  next_id clock w < 0 ->
  createTask clock range title description w =
    (Err (Plain ErrInvalidID),
     mkWorld (<[fresh (dom (heap w)) :=
                 mkTask (next_id clock w) title description StatusPending
                   (clock (1 + ticks w)%nat) (clock (2 + ticks w)%nat)]>
                (heap w))
             (tasks w) (3 + ticks w)%nat).
Proof.
  intros H1 H2 Hid. unfold createTask, usecase.CreateTask.
  rewrite H1, H2. unfold repo. cbn [app.CreateTask repository.TaskRepository].
  mstep.
  erewrite repository_CreateTask_invalid;
    [| cbn [heap]; apply lookup_insert_eq | exact Hid].
  reflexivity.
Qed.

Lemma getTask_found w id p :
  tasks w !! id = Some p -> getTask clock range id w = (Ok p, w).
Proof.
  intros H. unfold getTask, usecase.GetTask, repo.
  cbn [app.GetTaskByID repository.TaskRepository].
  erewrite bind_Ok by (apply repository_GetTaskByID_found; eassumption).
  reflexivity.
Qed.

Lemma getTask_absent w id :
  tasks w !! id = None ->
  getTask clock range id w = (Err (Plain ErrTaskNotFound), w).
Proof.
  intros H. unfold getTask, usecase.GetTask, repo.
  cbn [app.GetTaskByID repository.TaskRepository].
  now erewrite bind_Err by (apply repository_GetTaskByID_absent; eassumption).
Qed.

Lemma deleteTask_found w id p :
  tasks w !! id = Some p ->
  deleteTask clock range id w =
    (Ok tt, mkWorld (heap w) (delete id (tasks w)) (ticks w)).
Proof.
  intros H. unfold deleteTask, usecase.DeleteTask, repo.
  cbn [app.DeleteTask repository.TaskRepository].
  erewrite bind_Ok by (eapply repository_DeleteTask_found; eassumption).
  reflexivity.
Qed.

Lemma deleteTask_absent w id :
  tasks w !! id = None ->
  deleteTask clock range id w = (Err (Plain ErrTaskNotFound), w).
Proof.
  intros H. unfold deleteTask, usecase.DeleteTask, repo.
  cbn [app.DeleteTask repository.TaskRepository].
  now erewrite bind_Err by (apply repository_DeleteTask_absent; eassumption).
Qed.

Lemma updateTask_absent w id newTitle newDescription status :
  tasks w !! id = None ->
  updateTask clock range id newTitle newDescription status w =
    (Err (Plain ErrTaskNotFound), w).
Proof.
  intros H. unfold updateTask, usecase.UpdateTask, repo.
  cbn [app.GetTaskByID repository.TaskRepository].
  now erewrite bind_Err by (apply repository_GetTaskByID_absent; eassumption).
Qed.

Lemma updateTask_ok w id p t newTitle newDescription status :
  stored w id p t -> ID t = id ->
  (newTitle <> EmptyString -> validate.CheckTaskTitle newTitle = None) ->
  (newDescription <> EmptyString ->
   validate.CheckTaskDescription newDescription = None) ->
  updateTask clock range id newTitle newDescription status w =
    (Ok p,
     mkWorld (<[p := merged t newTitle newDescription status
                       (clock (S (ticks w)))]> (heap w))
             (tasks w) (S (S (ticks w)))).
Proof.
  intros [Hid Hp] HID Ht Hd.
  unfold updateTask, usecase.UpdateTask, repo, merged.
  cbn [app.GetTaskByID app.UpdateTask repository.TaskRepository].
  erewrite bind_Ok by (apply repository_GetTaskByID_found; eassumption).
  destruct (decide (newTitle <> EmptyString)) as [nt|nt];
    [rewrite (Ht nt) | apply dec_stable in nt];
  (destruct (decide (newDescription <> EmptyString)) as [nd|nd];
    [rewrite (Hd nd) | apply dec_stable in nd]);
  (destruct (decide (status <> EmptyString)) as [ns|ns];
    [| apply dec_stable in ns]);
  repeat case_decide; try congruence;
  mrun;
  (erewrite repository_UpdateTask_ok;
    [| cbn [heap]; apply lookup_insert_eq
     | cbn [tasks ID with_UpdatedAt with_Status with_Description with_Title];
       rewrite HID; exact Hid
     | cbn [heap]; apply lookup_insert_eq ]);
  cbn; rewrite ?insert_insert_eq; reflexivity.
Qed.

End UsecaseFacts.

(** ** Lemmas on listing *)

Section ListFacts.

Variable clock : nat -> Time.
Variable range : gmap Z loc -> list (Z * loc).

(** The loop never touches the world, whatever it returns. *)
Lemma GetAllTasks_loop_frame statusFilter entries acc w :
  snd (repository.GetAllTasks_loop statusFilter entries acc w) = w.
Proof.
  revert acc. induction entries as [|[id p] rest IH]; intros acc; cbn.
  - reflexivity.
  - case_decide; [apply IH |].
    mstep. destruct (heap w !! p); [| reflexivity].
    case_decide; apply IH.
Qed.

(** The loop returns no error value. *)
Lemma GetAllTasks_loop_no_error statusFilter entries acc w e :
  fst (repository.GetAllTasks_loop statusFilter entries acc w) <> Err e.
Proof.
  revert acc. induction entries as [|[id p] rest IH]; intros acc; cbn.
  - discriminate.
  - case_decide; [apply IH |].
    mstep. destruct (heap w !! p); [| discriminate].
    case_decide; apply IH.
Qed.

Lemma GetAllTasks_loop_ok statusFilter entries acc w :
  (statusFilter <> EmptyString ->
   forall id p, In (id, p) entries -> is_Some (heap w !! p)) ->
  repository.GetAllTasks_loop statusFilter entries acc w =
    (Ok (acc ++ List.filter (selected w statusFilter) (map snd entries)), w).
Proof.
  revert acc. induction entries as [|[id p] rest IH]; intros acc Hall; cbn.
  - unfold ret. now rewrite app_nil_r.
  - unfold selected at 1. case_decide as Hf.
    + rewrite IH by (intros ?; congruence). cbn. now rewrite <- app_assoc.
    + destruct (Hall Hf id p) as [t Ht]; [now left |].
      mstep. rewrite Ht.
      assert (Hrest : statusFilter <> EmptyString ->
                forall id p, In (id, p) rest -> is_Some (heap w !! p))
        by (intros _ ? ? ?; eapply (Hall Hf); right; eassumption).
      case_decide as Hs.
      * rewrite bool_decide_eq_true_2 by assumption.
        rewrite IH by assumption. cbn. now rewrite <- app_assoc.
      * rewrite bool_decide_eq_false_2 by assumption.
        now rewrite IH by assumption.
Qed.

Lemma listTasks_frame statusFilter w :
  snd (listTasks clock range statusFilter w) = w.
Proof.
  unfold listTasks, usecase.ListTasks, repo.
  cbn [app.GetAllTasks repository.TaskRepository].
  unfold bind, repository.GetAllTasks.
  pose proof (GetAllTasks_loop_frame statusFilter (range (tasks w)) [] w) as H.
  destruct (repository.GetAllTasks_loop _ _ _ w) as [[a|e|] w'];
    cbn in *; now subst.
Qed.

Lemma listTasks_no_error statusFilter w e :
  fst (listTasks clock range statusFilter w) <> Err e.
Proof.
  unfold listTasks, usecase.ListTasks, repo.
  cbn [app.GetAllTasks repository.TaskRepository].
  unfold bind, repository.GetAllTasks.
  pose proof (GetAllTasks_loop_no_error statusFilter (range (tasks w)) [] w)
    as H.
  destruct (repository.GetAllTasks_loop _ _ _ w) as [[a|e'|] w'];
    cbn in *; [discriminate | | discriminate].
  exfalso. now apply (H e').
Qed.

Lemma listTasks_ok statusFilter w :
  (statusFilter <> EmptyString ->
   forall id p, tasks w !! id = Some p -> is_Some (heap w !! p)) ->
  (forall id p, In (id, p) (range (tasks w)) -> tasks w !! id = Some p) ->
  listTasks clock range statusFilter w =
    (Ok (List.filter (selected w statusFilter)
           (map snd (range (tasks w)))), w).
Proof.
  intros Hall Hsound.
  unfold listTasks, usecase.ListTasks, repo.
  cbn [app.GetAllTasks repository.TaskRepository].
  erewrite bind_Ok; [reflexivity |].
  unfold repository.GetAllTasks.
  rewrite GetAllTasks_loop_ok; [reflexivity |].
  intros Hf id p Hin. eapply Hall; eauto.
Qed.

End ListFacts.

(** ** Lemmas on validation *)

Lemma CheckTaskTitle_kind title e :
  validate.CheckTaskTitle title = Some e -> Is e ErrValidation = true.
Proof.
  unfold validate.CheckTaskTitle. intros H.
  repeat (case_match; try discriminate); now simplify_eq.
Qed.

Lemma CheckTaskDescription_kind description e :
  validate.CheckTaskDescription description = Some e ->
  Is e ErrValidation = true.
Proof.
  unfold validate.CheckTaskDescription. intros H.
  repeat (case_match; try discriminate); now simplify_eq.
Qed.

Lemma CheckTaskTitle_None title :
  validate.CheckTaskTitle title = None <->
  title <> EmptyString /\
  3 <= utf8.RuneCountInString title <= 200 /\
  Forall (fun r => validate.in_class validate.taskTitleClass r = true)
    (utf8.runes title).
Proof.
  unfold validate.CheckTaskTitle, validate.taskTitleRegex_MatchString,
    validate.MinTaskTitleLength, validate.MaxTaskTitleLength,
    utf8.RuneCountInString.
  case_decide as He.
  { split; [discriminate | intros [? _]; contradiction]. }
  destruct (Z.ltb_spec (Z.of_nat (List.length (utf8.runes title))) 3).
  { split; [discriminate | lia]. }
  destruct (Z.gtb_spec (Z.of_nat (List.length (utf8.runes title))) 200).
  { split; [discriminate | lia]. }
  destruct (utf8.runes title) as [|r rs] eqn:Hr; [cbn in *; lia |].
  rewrite <- Hr in *.
  destruct (forallb _ (utf8.runes title)) eqn:Hall; cbn [negb].
  - pose proof (proj1 (forallb_forall _ _) Hall) as Hin.
    split; [| reflexivity].
    intros _. repeat split; try assumption; try lia.
    apply List.Forall_forall. exact Hin.
  - split; [discriminate |]. intros (_ & _ & HF).
    rewrite List.Forall_forall in HF.
    pose proof (proj2 (forallb_forall _ _) HF) as HT. congruence.
Qed.

Lemma CheckTaskDescription_None description :
  validate.CheckTaskDescription description = None <->
  utf8.RuneCountInString description <= 5000.
Proof.
  unfold validate.CheckTaskDescription, validate.MaxTaskDescriptionLength.
  destruct (Z.gtb_spec (utf8.RuneCountInString description) 5000);
    split; try discriminate; try reflexivity; lia.
Qed.

Lemma runes_empty : utf8.runes EmptyString = [].
Proof. reflexivity. Qed.

(** ** The failing paths of UpdateTask *)

Section UpdateFacts.

Variable clock : nat -> Time.
Variable range : gmap Z loc -> list (Z * loc).

Lemma updateTask_title_err w id p newTitle newDescription status e :
  tasks w !! id = Some p ->
  newTitle <> EmptyString ->
  validate.CheckTaskTitle newTitle = Some e ->
  updateTask clock range id newTitle newDescription status w = (Err e, w).
Proof.
  intros Hid Hne He. unfold updateTask, usecase.UpdateTask, repo.
  cbn [app.GetTaskByID app.UpdateTask repository.TaskRepository].
  erewrite bind_Ok by (apply repository_GetTaskByID_found; eassumption).
  case_decide; [| contradiction]. rewrite He. reflexivity.
Qed.

(** When the description is rejected, a new title has already been
    written through the pointer GetTaskByID returned. *)
Lemma updateTask_description_err w id p t newTitle newDescription status e :
  stored w id p t ->
  (newTitle <> EmptyString -> validate.CheckTaskTitle newTitle = None) ->
  newDescription <> EmptyString ->
  validate.CheckTaskDescription newDescription = Some e ->
  updateTask clock range id newTitle newDescription status w =
    (Err e,
     if decide (newTitle = EmptyString) then w
     else mkWorld (<[p := with_Title newTitle t]> (heap w))
            (tasks w) (ticks w)).
Proof.
  intros [Hid Hp] Ht Hne He. unfold updateTask, usecase.UpdateTask, repo.
  cbn [app.GetTaskByID app.UpdateTask repository.TaskRepository].
  erewrite bind_Ok by (apply repository_GetTaskByID_found; eassumption).
  destruct (decide (newDescription <> EmptyString)); [| contradiction].
  destruct (decide (newTitle <> EmptyString)) as [nt|nt].
  - rewrite (Ht nt). destruct (decide (newTitle = EmptyString));
      [contradiction |].
    mstep. rewrite Hp. mstep. rewrite He. reflexivity.
  - apply dec_stable in nt.
    destruct (decide (newTitle = EmptyString)); [| contradiction].
    mstep. rewrite He. reflexivity.
Qed.

Lemma repository_UpdateTask_errors task w e :
  fst (repository.UpdateTask clock task w) = Err e ->
  e = Plain ErrTaskNotFound.
Proof.
  unfold repository.UpdateTask. mstep. intros H.
  repeat (case_match; mstep; mlook; cbn [fst snd] in *;
          simplify_eq; try discriminate);
    try reflexivity; try congruence.
Qed.

Lemma updateTask_errors w id newTitle newDescription status e :
  fst (updateTask clock range id newTitle newDescription status w) = Err e ->
  e = Plain ErrTaskNotFound \/ Is e ErrValidation = true.
Proof.
  unfold updateTask, usecase.UpdateTask, repo.
  cbn [app.GetTaskByID app.UpdateTask repository.TaskRepository].
  unfold repository.GetTaskByID. mstep.
  destruct (tasks w !! id) as [p|]; mstep;
    [| intros; simplify_eq; now left].
  destruct (decide (newTitle <> EmptyString)).
  - destruct (validate.CheckTaskTitle newTitle) as [e'|] eqn:Ht.
    { mstep. intros; simplify_eq. right. eapply CheckTaskTitle_kind; eauto. }
    mstep. destruct (heap w !! p) as [t|] eqn:Hp; [| discriminate].
    mstep.
    destruct (decide (newDescription <> EmptyString)).
    + destruct (validate.CheckTaskDescription newDescription) as [e'|] eqn:Hd.
      { mstep. intros; simplify_eq. right.
        eapply CheckTaskDescription_kind; eauto. }
      mrun. case_decide; mrun.
      * match goal with |- context [repository.UpdateTask clock p ?w'] =>
          pose proof (repository_UpdateTask_errors p w' e) as HU;
          destruct (repository.UpdateTask clock p w') as [[?|?|] ?]
        end; cbn in *; intros; simplify_eq; left; now apply HU.
      * match goal with |- context [repository.UpdateTask clock p ?w'] =>
          pose proof (repository_UpdateTask_errors p w' e) as HU;
          destruct (repository.UpdateTask clock p w') as [[?|?|] ?]
        end; cbn in *; intros; simplify_eq; left; now apply HU.
    + mrun. case_decide; mrun;
      match goal with |- context [repository.UpdateTask clock p ?w'] =>
          pose proof (repository_UpdateTask_errors p w' e) as HU;
          destruct (repository.UpdateTask clock p w') as [[?|?|] ?]
        end; cbn in *; intros; simplify_eq; left; now apply HU.
  - mstep.
    destruct (decide (newDescription <> EmptyString)).
    + destruct (validate.CheckTaskDescription newDescription) as [e'|] eqn:Hd.
      { mstep. intros; simplify_eq. right.
        eapply CheckTaskDescription_kind; eauto. }
      mstep. destruct (heap w !! p) as [t|] eqn:Hp; [| discriminate].
      mrun. case_decide; mrun;
      match goal with |- context [repository.UpdateTask clock p ?w'] =>
          pose proof (repository_UpdateTask_errors p w' e) as HU;
          destruct (repository.UpdateTask clock p w') as [[?|?|] ?]
        end; cbn in *; intros; simplify_eq; left; now apply HU.
    + mstep. case_decide; mstep;
      (destruct (heap w !! p) as [t|] eqn:Hp; [| discriminate]);
      mrun;
      match goal with |- context [repository.UpdateTask clock p ?w'] =>
          pose proof (repository_UpdateTask_errors p w' e) as HU;
          destruct (repository.UpdateTask clock p w') as [[?|?|] ?]
        end; cbn in *; intros; simplify_eq; left; now apply HU.
Qed.

(** What a rejected update leaves behind: nothing but, possibly, the new
    title. *)
Lemma updateTask_rejected_frame w id p t newTitle newDescription status e w' :
  stored w id p t -> ID t = id ->
  updateTask clock range id newTitle newDescription status w = (Err e, w') ->
  tasks w' = tasks w /\ ticks w' = ticks w /\
  exists t',
    heap w' = <[p := t']> (heap w) /\
    ID t' = ID t /\ Description t' = Description t /\
    Status t' = Status t /\ CreatedAt t' = CreatedAt t /\
    UpdatedAt t' = UpdatedAt t /\
    (Title t' = Title t \/
     Title t' = newTitle /\ validate.CheckTaskTitle newTitle = None /\
     validate.CheckTaskDescription newDescription <> None).
Proof.
  intros Hst HID Hr.
  assert (Hsame : tasks w = tasks w /\ ticks w = ticks w /\
    exists t', heap w = <[p := t']> (heap w) /\
      ID t' = ID t /\ Description t' = Description t /\
      Status t' = Status t /\ CreatedAt t' = CreatedAt t /\
      UpdatedAt t' = UpdatedAt t /\
      (Title t' = Title t \/
       Title t' = newTitle /\ validate.CheckTaskTitle newTitle = None /\
       validate.CheckTaskDescription newDescription <> None)).
  { split; [reflexivity |]. split; [reflexivity |]. exists t.
    rewrite insert_id by apply Hst. repeat split; try reflexivity.
    now left. }
  destruct (decide (newTitle <> EmptyString)) as [nt|nt].
  - destruct (validate.CheckTaskTitle newTitle) as [e1|] eqn:Ht.
    { erewrite updateTask_title_err in Hr by (try apply Hst; eassumption).
      now simplify_eq. }
    destruct (decide (newDescription <> EmptyString)) as [nd|nd].
    + destruct (validate.CheckTaskDescription newDescription) as [e2|] eqn:Hd.
      * erewrite updateTask_description_err in Hr by eauto.
        case_decide; [contradiction |]. simplify_eq. cbn.
        split; [reflexivity |]. split; [reflexivity |].
        exists (with_Title newTitle t). repeat split; try reflexivity.
        right. repeat split; congruence.
      * erewrite updateTask_ok in Hr by eauto. discriminate.
    + erewrite updateTask_ok in Hr by (eauto; intros; contradiction).
      discriminate.
  - destruct (decide (newDescription <> EmptyString)) as [nd|nd].
    + destruct (validate.CheckTaskDescription newDescription) as [e2|] eqn:Hd.
      * erewrite updateTask_description_err in Hr
          by (eauto; intros; contradiction).
        apply dec_stable in nt. case_decide; [| contradiction].
        now simplify_eq.
      * erewrite updateTask_ok in Hr by (eauto; intros; contradiction).
        discriminate.
    + erewrite updateTask_ok in Hr by (eauto; intros; contradiction).
      discriminate.
Qed.

End UpdateFacts.

(** ** How a request changes the state *)

Section Transitions.

Variable clock : nat -> Time.
Variable range : gmap Z loc -> list (Z * loc).

Lemma createTask_transition w title description :
  transition clock w (snd (createTask clock range title description w)).
Proof.
  destruct (validate.CheckTaskTitle title) as [e|] eqn:H1.
  { erewrite createTask_title_err by eassumption. constructor. }
  destruct (validate.CheckTaskDescription description) as [e|] eqn:H2.
  { erewrite createTask_description_err by eassumption. constructor. }
  destruct (Z.le_gt_cases 0 (next_id clock w)).
  - rewrite createTask_ok by assumption. cbn [snd].
    match goal with |- context [<[_ := ?t]> (heap w)] =>
      apply (T_create clock w t) end; cbn; auto.
  - rewrite createTask_invalid_id by assumption. cbn [snd].
    apply T_alloc.
Qed.

Lemma updateTask_transition w id newTitle newDescription status :
  wf w ->
  transition clock w
    (snd (updateTask clock range id newTitle newDescription status w)).
Proof.
  intros Hwf.
  destruct (tasks w !! id) as [p|] eqn:Hid.
  2: { rewrite updateTask_absent by assumption. constructor. }
  destruct (Hwf id p Hid) as (t & Hp & HID).
  assert (Hst : stored w id p t) by (split; assumption).
  destruct (decide (newTitle <> EmptyString)) as [nt|nt].
  - destruct (validate.CheckTaskTitle newTitle) as [e|] eqn:Ht.
    { erewrite updateTask_title_err by eassumption. constructor. }
    destruct (decide (newDescription <> EmptyString)) as [nd|nd].
    + destruct (validate.CheckTaskDescription newDescription) as [e|] eqn:Hd.
      { erewrite updateTask_description_err by eauto.
        case_decide; [contradiction |]. cbn [snd].
        eapply T_title; eassumption. }
      erewrite updateTask_ok by eauto. cbn [snd].
      eapply T_update; eauto.
    + erewrite updateTask_ok by (eauto; intros; contradiction). cbn [snd].
      eapply T_update; eauto.
  - destruct (decide (newDescription <> EmptyString)) as [nd|nd].
    + destruct (validate.CheckTaskDescription newDescription) as [e|] eqn:Hd.
      { erewrite updateTask_description_err
          by (eauto; intros; contradiction).
        case_decide; cbn [snd]; [constructor | eapply T_title; eassumption]. }
      erewrite updateTask_ok by (eauto; intros; contradiction). cbn [snd].
      eapply T_update; eauto.
    + erewrite updateTask_ok by (eauto; intros; contradiction). cbn [snd].
      eapply T_update; eauto.
Qed.

Lemma serve_transition w r :
  wf w -> transition clock w (serve clock range r w).
Proof.
  intros Hwf. destruct r as [title d|id|f|id nt nd ns|id]; cbn [serve].
  - apply createTask_transition.
  - destruct (tasks w !! id) eqn:H.
    + erewrite getTask_found by eassumption. constructor.
    + rewrite getTask_absent by assumption. constructor.
  - rewrite listTasks_frame. constructor.
  - now apply updateTask_transition.
  - destruct (tasks w !! id) eqn:H.
    + erewrite deleteTask_found by eassumption. constructor.
    + rewrite deleteTask_absent by assumption. constructor.
Qed.

End Transitions.

(** ** Preservation of the invariants *)

Lemma stored_fresh w id p t : stored w id p t -> p <> fresh (dom (heap w)).
Proof.
  intros [_ Hp] ->.
  apply (is_fresh (dom (heap w))). apply elem_of_dom. eauto.
Qed.

Lemma allocated_fresh w p t :
  heap w !! p = Some t -> p <> fresh (dom (heap w)).
Proof.
  intros Hp ->. apply (is_fresh (dom (heap w))). apply elem_of_dom. eauto.
Qed.

Lemma wf_inj w id id' p :
  wf w -> tasks w !! id = Some p -> tasks w !! id' = Some p -> id = id'.
Proof.
  intros Hwf H1 H2.
  destruct (Hwf _ _ H1) as (t & Ht & <-).
  destruct (Hwf _ _ H2) as (t' & Ht' & <-). congruence.
Qed.

Lemma good_init clock : good clock init.
Proof.
  unfold good, wf, ids_nonneg, timely, stored. cbn.
  split; [| split]; intros *; rewrite lookup_empty;
    try discriminate; intros [? _]; discriminate.
Qed.

Section Invariants.

Variable clock : nat -> Time.
Variable range : gmap Z loc -> list (Z * loc).
Hypothesis clock_monotone : monotone clock.

Lemma clock_le n m : (n <= m)%nat -> clock n <= clock m.
Proof.
  induction 1 as [|m _ IH]; [lia |].
  specialize (clock_monotone m). lia.
Qed.

Lemma transition_wf w w' : wf w -> transition clock w w' -> wf w'.
Proof.
  intros Hwf Htr. destruct Htr as [|t|t|id p t title Hst|id p t t' Hst|id];
    intros i q Hq; cbn [tasks heap] in *.
  - now apply Hwf.
  - destruct (decide (ID t = i)) as [<-|Hne].
    + rewrite lookup_insert_eq in Hq. simplify_eq.
      exists t. now rewrite lookup_insert_eq.
    + rewrite lookup_insert_ne in Hq by assumption.
      destruct (Hwf _ _ Hq) as (t0 & Ht0 & HID). exists t0. split; [| easy].
      rewrite lookup_insert_ne; [easy |].
      intros <-. eapply allocated_fresh; eauto.
  - destruct (Hwf _ _ Hq) as (t0 & Ht0 & HID). exists t0. split; [| easy].
    rewrite lookup_insert_ne; [easy |].
    intros <-. eapply allocated_fresh; eauto.
  - destruct (Hwf _ _ Hq) as (t0 & Ht0 & HID).
    destruct (decide (p = q)) as [->|Hne].
    + destruct Hst as [_ Hp]. simplify_eq.
      eexists. rewrite lookup_insert_eq. split; [reflexivity | reflexivity].
    + exists t0. now rewrite lookup_insert_ne.
  - destruct (Hwf _ _ Hq) as (t0 & Ht0 & HID).
    destruct (decide (p = q)) as [->|Hne].
    + destruct Hst as [_ Hp]. simplify_eq.
      exists t'. rewrite lookup_insert_eq. split; [reflexivity | congruence].
    + exists t0. now rewrite lookup_insert_ne.
  - apply lookup_delete_Some in Hq as [_ Hq]. now apply Hwf.
Qed.

Lemma transition_ids_nonneg w w' :
  ids_nonneg w -> transition clock w w' -> ids_nonneg w'.
Proof.
  intros Hnn Htr. destruct Htr as [|t Hid|t|id p t title Hst|id p t t' Hst|id];
    intros i q Hq; cbn [tasks heap] in *; try (eapply Hnn; eassumption).
  - destruct (decide (ID t = i)) as [<-|Hne]; [assumption |].
    rewrite lookup_insert_ne in Hq by assumption. eapply Hnn; eassumption.
  - apply lookup_delete_Some in Hq as [_ Hq]. eapply Hnn; eassumption.
Qed.

Lemma transition_timely w w' :
  wf w -> timely clock w -> transition clock w w' -> timely clock w'.
Proof.
  intros Hwf Htm Htr.
  destruct Htr as [|t Hid Hc Hu|t|id p t title Hst|id p t t' Hst HI HC HU|id];
    intros i q tq [Hq Hh]; cbn [tasks heap ticks] in *.
  - apply (Htm i q tq). now split.
  - pose proof (clock_le (ticks w) (4 + ticks w) ltac:(lia)).
    pose proof (clock_le (3 + ticks w) (4 + ticks w) ltac:(lia)).
    destruct (decide (fresh (dom (heap w)) = q)) as [<-|Hq'].
    + rewrite lookup_insert_eq in Hh. simplify_eq. lia.
    + rewrite lookup_insert_ne in Hh by assumption.
      destruct (decide (ID t = i)) as [<-|Hne].
      * rewrite lookup_insert_eq in Hq. congruence.
      * rewrite lookup_insert_ne in Hq by assumption.
        destruct (Htm i q tq) as [? ?]; [now split | lia].
  - pose proof (clock_le (ticks w) (3 + ticks w) ltac:(lia)).
    destruct (Hwf _ _ Hq) as (t0 & Ht0 & _).
    rewrite lookup_insert_ne in Hh
      by (intros <-; eapply allocated_fresh; eauto).
    destruct (Htm i q tq) as [? ?]; [now split | lia].
  - destruct (decide (p = q)) as [->|Hne].
    + rewrite lookup_insert_eq in Hh. simplify_eq.
      destruct (Htm id q t) as [? ?]; [exact Hst | cbn; lia].
    + rewrite lookup_insert_ne in Hh by assumption.
      apply (Htm i q tq). now split.
  - pose proof (clock_le (ticks w) (S (ticks w)) ltac:(lia)).
    pose proof (clock_le (ticks w) (S (S (ticks w))) ltac:(lia)).
    destruct (decide (p = q)) as [->|Hne].
    + rewrite lookup_insert_eq in Hh. simplify_eq.
      destruct (Htm id q t) as [? ?]; [exact Hst | lia].
    + rewrite lookup_insert_ne in Hh by assumption.
      destruct (Htm i q tq) as [? ?]; [now split | lia].
  - apply lookup_delete_Some in Hq as [_ Hq].
    apply (Htm i q tq). now split.
Qed.

Lemma transition_good w w' :
  good clock w -> transition clock w w' -> good clock w'.
Proof.
  intros (Hwf & Hnn & Htm) Htr. split; [| split].
  - eapply transition_wf; eauto.
  - eapply transition_ids_nonneg; eauto.
  - eapply transition_timely; eauto.
Qed.

Lemma serve_good w r : good clock w -> good clock (serve clock range r w).
Proof.
  intros Hg. eapply transition_good; [exact Hg |].
  apply serve_transition. apply Hg.
Qed.

Lemma run_good rs w : good clock w -> good clock (run clock range rs w).
Proof.
  revert w. induction rs as [|r rs IH]; intros w Hg; cbn; [exact Hg |].
  apply IH. now apply serve_good.
Qed.

(** No transition changes the creation time of a task object. *)
Lemma transition_CreatedAt w w' p t :
  transition clock w w' -> heap w !! p = Some t ->
  exists t', heap w' !! p = Some t' /\ CreatedAt t' = CreatedAt t
             /\ ID t' = ID t.
Proof.
  intros Htr Hp.
  destruct Htr as [|t0 Hid Hc Hu|t0|id q t0 title Hst|id q t0 t' Hst HI HC HU|id];
    cbn [heap].
  - eauto.
  - exists t. rewrite lookup_insert_ne; [auto |].
    intros <-. eapply allocated_fresh; eauto.
  - exists t. rewrite lookup_insert_ne; [auto |].
    intros <-. eapply allocated_fresh; eauto.
  - destruct (decide (q = p)) as [->|Hne].
    + destruct Hst as [_ Hq]. simplify_eq.
      eexists. rewrite lookup_insert_eq. split; [reflexivity | auto].
    + exists t. now rewrite lookup_insert_ne.
  - destruct (decide (q = p)) as [->|Hne].
    + destruct Hst as [_ Hq]. simplify_eq.
      exists t'. rewrite lookup_insert_eq. auto.
    + exists t. now rewrite lookup_insert_ne.
  - eauto.
Qed.

End Invariants.

(** ** Facts on the concrete state *)

Lemma demo_stored : stored demo_world 7 1%positive demo_task.
Proof. split; reflexivity. Qed.

Lemma demo_wf : wf demo_world.
Proof.
  intros id p H. cbn in H. apply lookup_singleton_Some in H as [<- <-].
  exists demo_task. split; reflexivity.
Qed.

Lemma demo_clock_monotone : monotone demo_clock.
Proof. intros n. unfold demo_clock. lia. Qed.

Lemma demo_good : good demo_clock demo_world.
Proof.
  split; [exact demo_wf | split].
  - intros id p H. cbn in H. apply lookup_singleton_Some in H as [<- <-]. lia.
  - intros id p t [H1 H2]. cbn in H1, H2.
    apply lookup_singleton_Some in H1 as [<- <-].
    apply lookup_singleton_Some in H2 as [_ <-].
    cbn. unfold demo_clock. lia.
Qed.

(** ** Runs of the service *)

Lemma run_structure clock range rs w :
  wf w -> ids_nonneg w ->
  wf (run clock range rs w) /\ ids_nonneg (run clock range rs w).
Proof.
  revert w. induction rs as [|r rs IH]; intros w Hwf Hnn; cbn; [easy |].
  pose proof (serve_transition clock range w r Hwf) as Htr.
  apply IH.
  - eapply transition_wf; eassumption.
  - eapply transition_ids_nonneg; eassumption.
Qed.

(** ** ASCII bytes survive decoding *)

Ltac zbool :=
  repeat match goal with
  | H : (_ && _)%bool = true |- _ => apply andb_prop in H; destruct H
  | H : utf8.between _ _ _ = true |- _ => unfold utf8.between in H
  | H : (_ || _)%bool = false |- _ => apply orb_false_elim in H; destruct H
  | H : (_ <? _) = true |- _ => apply Z.ltb_lt in H
  | H : (_ <? _) = false |- _ => apply Z.ltb_ge in H
  | H : (_ <=? _) = true |- _ => apply Z.leb_le in H
  | H : (_ <=? _) = false |- _ => apply Z.leb_gt in H
  | H : (_ =? _) = true |- _ => apply Z.eqb_eq in H
  | H : (_ =? _) = false |- _ => apply Z.eqb_neq in H
  end.

Lemma DecodeRune_step s0 rest r n :
  utf8.DecodeRune (s0 :: rest) = (r, n) ->
  (n = 1%nat /\ (s0 < 0x80 -> r = s0)) \/
  ((2 <= n)%nat /\ Forall (fun b => 0x80 <= b) (take n (s0 :: rest))).
Proof.
  unfold utf8.DecodeRune, utf8.locb, utf8.hicb. cbv zeta. intros H.
  repeat (case_match; simplify_eq); zbool;
    try (left; split; [reflexivity | intros; lia]);
    right; (split; [lia |]); cbn [take];
    repeat (constructor; try lia).
Qed.

Lemma decode_all_ascii fuel s b :
  (List.length s <= fuel)%nat -> b < 0x80 -> In b s ->
  In b (utf8.decode_all fuel s).
Proof.
  revert s. induction fuel as [|fuel IH]; intros s Hlen Hb Hin.
  - destruct s; [contradiction | cbn in Hlen; lia].
  - destruct s as [|s0 rest]; [contradiction |].
    cbn [utf8.decode_all].
    destruct (utf8.DecodeRune (s0 :: rest)) as [r n] eqn:Hd.
    apply DecodeRune_step in Hd as [[-> Hr] | [Hn Hall]].
    + change (drop 1 (s0 :: rest)) with rest. destruct Hin as [<- | Hin].
      * left. now apply Hr.
      * right. apply IH; [cbn in Hlen; lia | assumption | assumption].
    + rewrite <- (take_drop n (s0 :: rest)) in Hin.
      apply in_app_or in Hin as [Hin | Hin].
      * rewrite List.Forall_forall in Hall. apply Hall in Hin. lia.
      * right. apply IH; [| assumption | assumption].
        rewrite length_drop. cbn [List.length] in *. lia.
Qed.

Lemma runes_at title :
  In "@"%char (list_ascii_of_string title) -> In 0x40 (utf8.runes title).
Proof.
  intros H. unfold utf8.runes. apply decode_all_ascii; [lia | lia |].
  unfold utf8.bytes.
  change 0x40 with ((fun a => Z.of_N (N_of_ascii a)) "@"%char).
  now apply in_map.
Qed.

(** ** Validation in CreateTask *)

Lemma rejected_iff clock range w title description :
  rejected clock range w title description <->
  validate.CheckTaskTitle title <> None \/
  validate.CheckTaskDescription description <> None.
Proof.
  unfold rejected.
  destruct (validate.CheckTaskTitle title) as [e1|] eqn:H1.
  { split; [intros _; left; discriminate |]. intros _. exists e1.
    erewrite createTask_title_err by eassumption. split; [reflexivity |].
    eapply CheckTaskTitle_kind; eassumption. }
  destruct (validate.CheckTaskDescription description) as [e2|] eqn:H2.
  { split; [intros _; right; discriminate |]. intros _. exists e2.
    erewrite createTask_description_err by eassumption. split; [reflexivity |].
    eapply CheckTaskDescription_kind; eassumption. }
  split; [| intros [H | H]; contradiction].
  intros (e & He & Hk). exfalso.
  destruct (Z.le_gt_cases 0 (next_id clock w)).
  - rewrite createTask_ok in He by assumption. discriminate.
  - rewrite createTask_invalid_id in He by assumption.
    cbn in He. simplify_eq.
Qed.

Lemma title_rejected_iff title :
  validate.CheckTaskTitle title <> None <->
  title = EmptyString \/
  utf8.RuneCountInString title < 3 \/
  utf8.RuneCountInString title > 200 \/
  exists r, In r (utf8.runes title) /\ ~ title_rune r.
Proof.
  rewrite CheckTaskTitle_None. split.
  - intros Hn.
    destruct (decide (title = EmptyString)); [now left |].
    destruct (Z.lt_ge_cases (utf8.RuneCountInString title) 3);
      [right; now left |].
    destruct (Z.le_gt_cases (utf8.RuneCountInString title) 200);
      [| right; right; left; lia].
    right; right; right.
    assert (HF : ~ Forall title_rune (utf8.runes title)).
    { intros HF. apply Hn. repeat split; try assumption. }
    apply not_Forall_Exists in HF; [| intros r; unfold title_rune; apply _].
    apply List.Exists_exists in HF as (r & Hin & Hr). eauto.
  - intros [H | [H | [H | (r & Hin & Hr)]]] (Hne & Hlen & HF);
      try contradiction; try lia.
    rewrite List.Forall_forall in HF. apply Hr. now apply HF.
Qed.

(** ** Listing *)

Lemma NoDup_map_in {A B} (f : A -> B) (l : list A) :
  (forall x y, In x l -> In y l -> f x = f y -> x = y) ->
  NoDup l -> NoDup (map f l).
Proof.
  intros Hinj Hnd. induction Hnd as [|x l Hx Hnd IH]; cbn; constructor.
  - rewrite list_elem_of_In, in_map_iff. intros (y & Hxy & Hy).
    apply Hx. rewrite list_elem_of_In.
    replace x with y; [assumption |].
    apply Hinj; [now right | now left | assumption].
  - apply IH. intros a b Ha Hb. apply Hinj; now right.
Qed.

Lemma selected_spec w statusFilter p t :
  heap w !! p = Some t ->
  selected w statusFilter p = true <->
  statusFilter = EmptyString \/ Status t = statusFilter.
Proof.
  intros Hp. unfold selected. case_decide as Hf.
  - split; [now left | reflexivity].
  - rewrite Hp, bool_decide_eq_true. split; [now right |].
    intros [? | ?]; [contradiction | assumption].
Qed.

(** ** Checks of the embedding on concrete inputs *)

Example runes_cyrillic : utf8.runes "Тест" = [0x422; 0x435; 0x441; 0x442].
Proof. reflexivity. Qed.

Example decode_euro : utf8.DecodeRune [0xE2; 0x82; 0xAC] = (0x20AC, 3%nat).
Proof. reflexivity. Qed.

Example decode_four : utf8.DecodeRune [0xF0; 0x9F; 0x98; 0x80] = (0x1F600, 4%nat).
Proof. reflexivity. Qed.

Example decode_overlong :
  utf8.decode_all 2 [0xC0; 0x80] = [utf8.RuneError; utf8.RuneError].
Proof. reflexivity. Qed.

Example decode_surrogate :
  utf8.decode_all 3 [0xED; 0xA0; 0x80] =
    [utf8.RuneError; utf8.RuneError; utf8.RuneError].
Proof. reflexivity. Qed.

Example decode_truncated : utf8.DecodeRune [0xD0] = (utf8.RuneError, 1%nat).
Proof. reflexivity. Qed.

Example title_accepted : validate.CheckTaskTitle "Купить хлеб, 2 шт." = None.
Proof. reflexivity. Qed.

Example title_two_runes :
  validate.CheckTaskTitle "да" =
    Some (Wrapf ErrValidation "task title must be at least 3 characters").
Proof. reflexivity. Qed.

Example title_at_sign :
  validate.CheckTaskTitle "mail@me" =
    Some (Wrapf ErrValidation "task title contains invalid characters").
Proof. reflexivity. Qed.

(** [Ё] (U+0401) and [ё] (U+0451) lie outside the ranges of the pattern. *)
Example title_yo :
  validate.CheckTaskTitle "Ёлка" =
    Some (Wrapf ErrValidation "task title contains invalid characters").
Proof. reflexivity. Qed.

Example description_limit :
  validate.CheckTaskDescription long_description <> None /\
  validate.CheckTaskDescription (repeat_string (Z.to_nat 5000) "a") = None.
Proof. split; [vm_compute; discriminate | vm_compute; reflexivity]. Qed.

(** Repository.UpdateTask with a task object of its own, as the
    repository's test calls it: the stored entry takes the three fields and
    keeps its ID and CreatedAt. *)
Example repository_UpdateTask_copy :
  let w := mkWorld (<[2%positive := mkTask 7 "Updated" "Updated Desc"
                                      StatusInProgress 0 0]> (heap demo_world))
             (tasks demo_world) 0 in
  exists w',
    repository.UpdateTask demo_clock 2%positive w = (Ok 1%positive, w') /\
    heap w' !! 1%positive =
      Some (mkTask 7 "Updated" "Updated Desc" StatusInProgress 50
              (demo_clock 0)).
Proof.
  eexists. split.
  - eapply repository_UpdateTask_ok; reflexivity.
  - reflexivity.
Qed.

(** * The properties of the specification *)

(** C1. For a stored task with ID [id], UpdateTask merges the request into
    it: an empty new title keeps the stored title and a non-empty one that
    passes CheckTaskTitle replaces it; likewise for the description and
    CheckTaskDescription; a non-empty status, whatever string it is,
    replaces the status; and the merged task is the one GetTask returns
    afterwards. *)
Theorem updateTask_merges clock range w id p t newTitle newDescription status :
  stored w id p t -> ID t = id ->
  (newTitle <> EmptyString -> validate.CheckTaskTitle newTitle = None) ->
  (newDescription <> EmptyString ->
   validate.CheckTaskDescription newDescription = None) ->
  exists w' t',
    updateTask clock range id newTitle newDescription status w = (Ok p, w') /\
    getTask clock range id w' = (Ok p, w') /\
    heap w' !! p = Some t' /\
    Title t' = (if decide (newTitle = EmptyString) then Title t
                else newTitle) /\
    Description t' = (if decide (newDescription = EmptyString)
                      then Description t else newDescription) /\
    Status t' = (if decide (status = EmptyString) then Status t
                 else status).
Proof.
  intros Hst HID Ht Hd.
  eexists; eexists. split.
  - eapply updateTask_ok; eassumption.
  - split.
    + apply getTask_found. cbn [tasks]. apply Hst.
    + cbn [heap]. rewrite lookup_insert_eq. repeat split; reflexivity.
Qed.

Lemma updateTask_merges_witness :
  exists w' t',
    updateTask demo_clock map_to_list 7 "Write the report" EmptyString
      "archived" demo_world = (Ok 1%positive, w') /\
    getTask demo_clock map_to_list 7 w' = (Ok 1%positive, w') /\
    heap w' !! 1%positive = Some t' /\
    Title t' = "Write the report" /\
    Description t' = "First draft" /\
    Status t' = "archived".
Proof.
  apply (updateTask_merges demo_clock map_to_list demo_world 7 1%positive
           demo_task "Write the report" EmptyString "archived").
  - exact demo_stored.
  - reflexivity.
  - intros _. reflexivity.
  - intros H. exfalso. apply H. reflexivity.
Defined.

(** C2, which the code breaks: an update rejected with ErrValidation should
    leave the stored task as it was.  Here UpdateTask is asked to change
    both the title and the description of the stored task 7; the
    description has 5001 runes and is rejected with ErrValidation, but by
    then the new title has been written through the pointer into the
    store. *)
Theorem updateTask_rejected_description_writes_title :
  exists e w' t',
    updateTask demo_clock map_to_list 7 "New title" long_description
      EmptyString demo_world = (Err e, w') /\
    Is e ErrValidation = true /\
    stored demo_world 7 1%positive demo_task /\
    stored w' 7 1%positive t' /\
    Title demo_task = "Write report" /\
    Title t' = "New title".
Proof.
  assert (Hd : validate.CheckTaskDescription long_description =
               Some (Wrapf ErrValidation
                 "task description cannot be longer than 5000 characters"))
    by (vm_compute; reflexivity).
  exists (Wrapf ErrValidation
            "task description cannot be longer than 5000 characters").
  exists (mkWorld (<[1%positive := with_Title "New title" demo_task]>
                     (heap demo_world)) (tasks demo_world) 0).
  exists (with_Title "New title" demo_task).
  split.
  - erewrite updateTask_description_err;
      [ | exact demo_stored | intros _; reflexivity | discriminate | exact Hd].
    case_decide; [discriminate | reflexivity].
  - split; [reflexivity |]. split; [exact demo_stored |].
    split; [| split; reflexivity].
    split; [reflexivity |]. cbn [heap]. apply lookup_insert_eq.
Qed.

(** C3. For a title and a description that pass validation, and a clock
    that reads a time of the Unix era, CreateTask succeeds, and the task it
    returns has status pending and CreatedAt equal to UpdatedAt. *)
Theorem createTask_valid clock range w title description :
  validate.CheckTaskTitle title = None ->
  validate.CheckTaskDescription description = None ->
  in_epoch (clock (ticks w)) ->
  exists p w' t,
    createTask clock range title description w = (Ok p, w') /\
    stored w' (ID t) p t /\
    Title t = title /\ Description t = description /\
    Status t = StatusPending /\
    CreatedAt t = UpdatedAt t.
Proof.
  intros H1 H2 [Hlo Hhi].
  assert (Hid : 0 <= next_id clock w).
  { unfold next_id, UnixNano, wrap64, Millisecond.
    replace ((clock (ticks w) + 2 ^ 63) mod 2 ^ 64 - 2 ^ 63)
      with (clock (ticks w)).
    - apply Z.quot_pos; lia.
    - rewrite Z.mod_small by lia. lia. }
  exists (fresh (dom (heap w))). eexists.
  exists (mkTask (next_id clock w) title description StatusPending
            (clock (3 + ticks w)%nat) (clock (3 + ticks w)%nat)).
  split; [apply createTask_ok; assumption |].
  split; [split |]; cbn [tasks heap ID].
  - apply lookup_insert_eq.
  - apply lookup_insert_eq.
  - repeat split; reflexivity.
Qed.

Lemma createTask_valid_witness :
  exists p w' t,
    createTask demo_clock map_to_list "Buy milk" EmptyString demo_world
      = (Ok p, w') /\
    stored w' (ID t) p t /\
    Title t = "Buy milk" /\ Description t = EmptyString /\
    Status t = StatusPending /\
    CreatedAt t = UpdatedAt t.
Proof.
  apply (createTask_valid demo_clock map_to_list demo_world "Buy milk"
           EmptyString).
  - reflexivity.
  - reflexivity.
  - unfold in_epoch, demo_clock. cbn. lia.
Defined.

Lemma title_rune_admitted r : title_rune r <-> admitted_title_rune r.
Proof.
  unfold title_rune, admitted_title_rune, validate.in_class,
    validate.taskTitleClass. cbn. unfold utf8.between. split.
  - intros H. repeat (apply orb_prop in H as [H | H]); zbool;
      try lia; discriminate.
  - intros H. repeat rewrite orb_true_iff.
    repeat rewrite andb_true_iff. repeat rewrite Z.leb_le. lia.
Qed.

(** C4, as the code has it.  CreateTask fails with ErrValidation exactly
    when the title is empty, has fewer than 3 or more than 200 runes, or
    contains a rune outside Latin letters A to Z and a to z, digits, the
    Cyrillic letters U+0410 to U+044F, tab, line feed, form feed, carriage
    return, space, and [. , ! ? -], or the description has more than 5000
    runes.  So a title of 3 such runes with an empty or a 5000-rune
    description is not rejected, while a title of 201 runes, a title with
    an [@] in it and a description of 5001 runes are. *)
Theorem createTask_validation clock range w title description :
  (rejected clock range w title description <->
   title = EmptyString \/
   utf8.RuneCountInString title < 3 \/
   utf8.RuneCountInString title > 200 \/
   (exists r, In r (utf8.runes title) /\ ~ admitted_title_rune r) \/
   utf8.RuneCountInString description > 5000) /\
  (utf8.RuneCountInString title = 3 ->
   Forall admitted_title_rune (utf8.runes title) ->
   description = EmptyString \/ utf8.RuneCountInString description = 5000 ->
   ~ rejected clock range w title description) /\
  (utf8.RuneCountInString title = 201 ->
   rejected clock range w title description) /\
  (In "@"%char (list_ascii_of_string title) ->
   rejected clock range w title description) /\
  (utf8.RuneCountInString description = 5001 ->
   rejected clock range w title description).
Proof.
  assert (Hex : (exists r, In r (utf8.runes title) /\ ~ title_rune r) <->
                (exists r, In r (utf8.runes title) /\ ~ admitted_title_rune r)).
  { split; intros (r & Hin & Hn); exists r; (split; [exact Hin |]);
      intros Ha; apply Hn; now apply title_rune_admitted. }
  assert (Hiff : rejected clock range w title description <->
    title = EmptyString \/
    utf8.RuneCountInString title < 3 \/
    utf8.RuneCountInString title > 200 \/
    (exists r, In r (utf8.runes title) /\ ~ admitted_title_rune r) \/
    utf8.RuneCountInString description > 5000).
  { rewrite rejected_iff, title_rejected_iff.
    assert (Hd : validate.CheckTaskDescription description <> None <->
                 utf8.RuneCountInString description > 5000).
    { rewrite CheckTaskDescription_None. lia. }
    rewrite Hd. tauto. }
  split; [exact Hiff |].
  rewrite Hiff. split; [| split; [| split]].
  - intros Hlen HF Hdesc [H | [H | [H | [(r & Hin & Hr) | H]]]].
    + subst title. change (utf8.RuneCountInString EmptyString) with 0 in Hlen.
      lia.
    + lia.
    + lia.
    + rewrite List.Forall_forall in HF. apply Hr. now apply HF.
    + destruct Hdesc as [-> | Hdesc]; [| lia].
      change (utf8.RuneCountInString EmptyString) with 0 in H. lia.
  - intros H. right; right; left. lia.
  - intros H. right; right; right; left. exists 0x40.
    split; [now apply runes_at | ]. unfold admitted_title_rune. lia.
  - intros H. right; right; right; right. lia.
Qed.

Lemma createTask_validation_witness :
  ~ rejected demo_clock map_to_list demo_world "Чай" EmptyString /\
  rejected demo_clock map_to_list demo_world "me@home" "call".
Proof.
  split.
  - apply (proj1 (proj2 (createTask_validation demo_clock map_to_list
                           demo_world "Чай" EmptyString))).
    + reflexivity.
    + change (utf8.runes "Чай") with [0x427; 0x430; 0x439].
      repeat constructor; unfold admitted_title_rune; lia.
    + left. reflexivity.
  - apply (proj1 (proj2 (proj2 (proj2
             (createTask_validation demo_clock map_to_list demo_world
                "me@home" "call"))))).
    cbn. tauto.
Defined.

(** C4 as the specification words it fails: the title [Ёж!] has three
    runes, a Cyrillic capital letter, a Cyrillic small letter and an
    exclamation mark, and the description is empty, yet CreateTask rejects
    it with ErrValidation, [Ё] (U+0401) lying outside the range U+0410 to
    U+044F of the pattern. *)
Lemma createTask_validation_counterexample :
  rejected demo_clock map_to_list demo_world "Ёж!" EmptyString /\
  ~ worded_rejection "Ёж!" EmptyString.
Proof.
  split.
  - apply rejected_iff. left. discriminate.
  - unfold worded_rejection.
    change (utf8.RuneCountInString "Ёж!") with 3.
    change (utf8.RuneCountInString EmptyString) with 0.
    change (utf8.runes "Ёж!") with [0x401; 0x436; 0x21].
    intros [H | [H | [H | [(r & Hin & Hr) | H]]]];
      [discriminate | lia | lia | | lia].
    apply Hr. unfold worded_title_rune.
    destruct Hin as [<- | [<- | [<- | []]]]; lia.
Qed.

(** C5. Repository.CreateTask on a task object fails with ErrInvalidID
    exactly when the task's ID is negative, and then changes nothing;
    otherwise it sets CreatedAt and UpdatedAt of the object to the clock
    reading, stores the pointer under the task's ID, whatever was stored
    there before, and returns that pointer. *)
Theorem repository_CreateTask_spec clock w task t :
  heap w !! task = Some t ->
  ((exists e, fst (repository.CreateTask clock task w) = Err e /\
              Is e ErrInvalidID = true) <-> ID t < 0) /\
  (ID t < 0 ->
   repository.CreateTask clock task w = (Err (Plain ErrInvalidID), w)) /\
  (0 <= ID t ->
   exists w',
     repository.CreateTask clock task w = (Ok task, w') /\
     tasks w' = <[ID t := task]> (tasks w) /\
     tasks w' !! ID t = Some task /\
     heap w' = <[task := mkTask (ID t) (Title t) (Description t) (Status t)
                           (clock (ticks w)) (clock (ticks w))]> (heap w)).
Proof.
  intros Ht. split; [| split].
  - split.
    + intros (e & He & _). destruct (Z.lt_ge_cases (ID t) 0); [assumption |].
      erewrite repository_CreateTask_ok in He by eassumption. discriminate.
    + intros Hneg. exists (Plain ErrInvalidID).
      erewrite repository_CreateTask_invalid by eassumption. now split.
  - intros Hneg. eapply repository_CreateTask_invalid; eassumption.
  - intros Hpos. eexists.
    split; [eapply repository_CreateTask_ok; eassumption |].
    cbn [tasks heap]. rewrite lookup_insert_eq. repeat split; reflexivity.
Qed.

Lemma repository_CreateTask_spec_witness :
  ((exists e, fst (repository.CreateTask demo_clock 1%positive demo_world)
                = Err e /\ Is e ErrInvalidID = true) <-> 7 < 0) /\
  (7 < 0 ->
   repository.CreateTask demo_clock 1%positive demo_world =
     (Err (Plain ErrInvalidID), demo_world)) /\
  (0 <= 7 ->
   exists w',
     repository.CreateTask demo_clock 1%positive demo_world =
       (Ok 1%positive, w') /\
     tasks w' = <[7 := 1%positive]> (tasks demo_world) /\
     tasks w' !! 7 = Some 1%positive /\
     heap w' = <[1%positive :=
                  mkTask 7 "Write report" "First draft" StatusPending
                    (demo_clock 0) (demo_clock 0)]> (heap demo_world)).
Proof.
  apply (repository_CreateTask_spec demo_clock demo_world 1%positive demo_task).
  reflexivity.
Defined.

(** C6. ListTasks never fails.  With the empty filter it returns every
    stored task, whatever its status; with a non-empty filter it returns
    the stored tasks whose status equals the filter, each once and no
    others, in the order in which the map happens to be walked. *)
Theorem listTasks_spec clock range w statusFilter :
  range (tasks w) ≡ₚ map_to_list (tasks w) ->
  wf w ->
  exists ps,
    listTasks clock range statusFilter w = (Ok ps, w) /\
    List.NoDup ps /\
    forall p,
      In p ps <->
      exists id t, stored w id p t /\
                   (statusFilter = EmptyString \/ Status t = statusFilter).
Proof.
  intros Hperm Hwf.
  assert (Hsound : forall id p,
            In (id, p) (range (tasks w)) <-> tasks w !! id = Some p).
  { intros id p. rewrite <- elem_of_map_to_list, <- list_elem_of_In.
    now rewrite Hperm. }
  exists (List.filter (selected w statusFilter) (map snd (range (tasks w)))).
  split; [| split].
  - apply listTasks_ok.
    + intros _ id p Hp. destruct (Hwf _ _ Hp) as (t & Ht & _). eauto.
    + intros id p. apply Hsound.
  - apply List.NoDup_filter. apply NoDup_ListNoDup. apply NoDup_map_in.
    + intros [i p] [j q] Hi Hj Heq. cbn in Heq. subst q.
      apply Hsound in Hi, Hj. f_equal. eapply wf_inj; eassumption.
    + rewrite Hperm. apply NoDup_map_to_list.
  - intros p. rewrite filter_In, in_map_iff. split.
    + intros [([id q] & Hq & Hin) Hsel]. cbn in Hq. subst q.
      apply Hsound in Hin. destruct (Hwf _ _ Hin) as (t & Ht & _).
      exists id, t. split; [now split |].
      now apply (selected_spec w statusFilter p t Ht).
    + intros (id & t & [Hid Ht] & Hf). split.
      * exists (id, p). split; [reflexivity | now apply Hsound].
      * now apply (selected_spec w statusFilter p t Ht).
Qed.

Lemma listTasks_spec_witness :
  exists ps,
    listTasks demo_clock map_to_list StatusPending demo_world
      = (Ok ps, demo_world) /\
    List.NoDup ps /\
    forall p,
      In p ps <->
      exists id t, stored demo_world id p t /\
                   (StatusPending = EmptyString \/ Status t = StatusPending).
Proof.
  apply (listTasks_spec demo_clock map_to_list demo_world StatusPending).
  - reflexivity.
  - exact demo_wf.
Defined.

(** C7. DeleteTask on a stored ID succeeds and removes the entry: GetTask
    on that ID then fails with ErrTaskNotFound and every other entry, and
    every task object, is as before.  DeleteTask on an ID that is not
    stored fails with ErrTaskNotFound and leaves the state unchanged. *)
Theorem deleteTask_spec clock range w id :
  (forall p, tasks w !! id = Some p ->
     exists w',
       deleteTask clock range id w = (Ok tt, w') /\
       getTask clock range id w' = (Err (Plain ErrTaskNotFound), w') /\
       heap w' = heap w /\
       forall id', id' <> id -> tasks w' !! id' = tasks w !! id') /\
  (tasks w !! id = None ->
     deleteTask clock range id w = (Err (Plain ErrTaskNotFound), w)).
Proof.
  split.
  - intros p Hp. eexists. split; [eapply deleteTask_found; eassumption |].
    split; [| split].
    + apply getTask_absent. cbn [tasks]. apply lookup_delete_eq.
    + reflexivity.
    + intros id' Hne. cbn [tasks]. now apply lookup_delete_ne.
  - apply deleteTask_absent.
Qed.

Lemma deleteTask_spec_witness :
  (exists w',
     deleteTask demo_clock map_to_list 7 demo_world = (Ok tt, w') /\
     getTask demo_clock map_to_list 7 w' = (Err (Plain ErrTaskNotFound), w') /\
     heap w' = heap demo_world /\
     forall id', id' <> 7 -> tasks w' !! id' = tasks demo_world !! id') /\
  deleteTask demo_clock map_to_list 8 demo_world =
    (Err (Plain ErrTaskNotFound), demo_world).
Proof.
  split.
  - apply (proj1 (deleteTask_spec demo_clock map_to_list demo_world 7)
             1%positive).
    reflexivity.
  - apply (proj2 (deleteTask_spec demo_clock map_to_list demo_world 8)).
    reflexivity.
Defined.

(** C8. While the clock does not run backwards, every task stored by the
    service has UpdatedAt no earlier than CreatedAt, in the initial state
    and after every request (create, get, list, update, delete); no request
    changes the CreatedAt of an existing task object; and
    Repository.UpdateTask sets UpdatedAt of the stored entry to the clock
    reading and keeps its CreatedAt. *)
Theorem timestamps_invariant clock range :
  monotone clock ->
  good clock init /\
  (forall w r, good clock w -> good clock (serve clock range r w)) /\
  (forall rs id p t,
     stored (run clock range rs init) id p t -> CreatedAt t <= UpdatedAt t) /\
  (forall w r p t,
     wf w -> heap w !! p = Some t ->
     exists t', heap (serve clock range r w) !! p = Some t' /\
                CreatedAt t' = CreatedAt t) /\
  (forall w task t e te,
     heap w !! task = Some t -> tasks w !! ID t = Some e ->
     heap w !! e = Some te ->
     exists w' te',
       repository.UpdateTask clock task w = (Ok e, w') /\
       heap w' !! e = Some te' /\
       UpdatedAt te' = clock (ticks w) /\
       CreatedAt te' = CreatedAt te).
Proof.
  intros Hmono. split; [apply good_init |]. split; [| split; [| split]].
  - intros w r. now apply serve_good.
  - intros rs id p t Hst.
    pose proof (run_good clock range Hmono rs init (good_init clock))
      as (_ & _ & Htm).
    now apply (Htm id p t).
  - intros w r p t Hwf Hp.
    destruct (transition_CreatedAt clock w (serve clock range r w) p t)
      as (t' & Ht' & Hc & _); [now apply serve_transition | assumption |].
    eauto.
  - intros w task t e te Ht He Hte. eexists; eexists.
    split; [eapply repository_UpdateTask_ok; eassumption |].
    cbn [heap]. rewrite lookup_insert_eq. repeat split; reflexivity.
Qed.

Lemma timestamps_invariant_witness :
  good demo_clock init /\
  good demo_clock
    (serve demo_clock map_to_list
       (ReqUpdate 7 EmptyString EmptyString StatusCompleted) demo_world).
Proof.
  assert (Hmono : monotone demo_clock)
    by (intros n; unfold demo_clock; lia).
  split.
  - apply (proj1 (timestamps_invariant demo_clock map_to_list Hmono)).
  - apply (proj1 (proj2 (timestamps_invariant demo_clock map_to_list Hmono))).
    exact demo_good.
Defined.

(** C9. For a stored task, UpdateTask with all three new fields empty
    succeeds and changes nothing but the task's UpdatedAt, which becomes
    the clock reading the repository takes. *)
Theorem updateTask_empty_request clock range w id p t :
  stored w id p t -> ID t = id ->
  exists t',
    updateTask clock range id EmptyString EmptyString EmptyString w =
      (Ok p, mkWorld (<[p := t']> (heap w)) (tasks w) (S (S (ticks w)))) /\
    ID t' = ID t /\ Title t' = Title t /\ Description t' = Description t /\
    Status t' = Status t /\ CreatedAt t' = CreatedAt t /\
    UpdatedAt t' = clock (S (ticks w)).
Proof.
  intros Hst HID.
  exists (with_UpdatedAt (clock (S (ticks w))) t). split.
  - erewrite updateTask_ok by (eauto; intros H; now contradiction H).
    reflexivity.
  - repeat split; reflexivity.
Qed.

Lemma updateTask_empty_request_witness :
  exists t',
    updateTask demo_clock map_to_list 7 EmptyString EmptyString EmptyString
      demo_world =
      (Ok 1%positive,
       mkWorld (<[1%positive := t']> (heap demo_world)) (tasks demo_world) 2) /\
    ID t' = 7 /\ Title t' = "Write report" /\ Description t' = "First draft" /\
    Status t' = StatusPending /\ CreatedAt t' = 50 /\
    UpdatedAt t' = demo_clock 1.
Proof.
  apply (updateTask_empty_request demo_clock map_to_list demo_world 7
           1%positive demo_task).
  - exact demo_stored.
  - reflexivity.
Defined.

(** C10. GetTask, UpdateTask and DeleteTask on an ID that is not stored,
    negative IDs included, fail with ErrTaskNotFound; none of GetTask,
    ListTasks, UpdateTask and DeleteTask ever returns ErrInvalidID; and no
    run of the service stores a task under a negative ID. *)
Theorem only_create_returns_InvalidID clock range :
  (forall w id newTitle newDescription status,
     tasks w !! id = None ->
     getTask clock range id w = (Err (Plain ErrTaskNotFound), w) /\
     updateTask clock range id newTitle newDescription status w =
       (Err (Plain ErrTaskNotFound), w) /\
     deleteTask clock range id w = (Err (Plain ErrTaskNotFound), w)) /\
  (forall w id statusFilter newTitle newDescription status e,
     fst (getTask clock range id w) = Err e \/
     fst (listTasks clock range statusFilter w) = Err e \/
     fst (updateTask clock range id newTitle newDescription status w) = Err e \/
     fst (deleteTask clock range id w) = Err e ->
     Is e ErrInvalidID = false) /\
  (forall rs id, id < 0 -> tasks (run clock range rs init) !! id = None).
Proof.
  split; [| split].
  - intros w id nt nd ns H. split; [| split].
    + now apply getTask_absent.
    + now apply updateTask_absent.
    + now apply deleteTask_absent.
  - intros w id f nt nd ns e [H | [H | [H | H]]].
    + destruct (tasks w !! id) eqn:Hid.
      * erewrite getTask_found in H by eassumption. discriminate.
      * rewrite getTask_absent in H by assumption.
        cbn in H. now simplify_eq.
    + now apply listTasks_no_error in H.
    + apply updateTask_errors in H as [-> | H]; [reflexivity |].
      destruct e as [[]|[]]; cbn in *; congruence.
    + destruct (tasks w !! id) eqn:Hid.
      * erewrite deleteTask_found in H by eassumption. discriminate.
      * rewrite deleteTask_absent in H by assumption.
        cbn in H. now simplify_eq.
  - intros rs id Hneg.
    destruct (run_structure clock range rs init) as [_ Hnn].
    + apply good_init with (clock := clock).
    + apply good_init with (clock := clock).
    + destruct (tasks (run clock range rs init) !! id) as [p|] eqn:Hid;
        [| reflexivity].
      apply Hnn in Hid. lia.
Qed.

Lemma only_create_returns_InvalidID_witness :
  getTask demo_clock map_to_list (-3) demo_world =
    (Err (Plain ErrTaskNotFound), demo_world) /\
  updateTask demo_clock map_to_list (-3) "New title" EmptyString EmptyString
    demo_world = (Err (Plain ErrTaskNotFound), demo_world) /\
  deleteTask demo_clock map_to_list (-3) demo_world =
    (Err (Plain ErrTaskNotFound), demo_world).
Proof.
  apply (proj1 (only_create_returns_InvalidID demo_clock map_to_list)
           demo_world (-3) "New title" EmptyString EmptyString).
  reflexivity.
Defined.

(** * Further properties of the repository *)

Lemma filter_sublist {A} (f : A -> bool) (l : list A) :
  sublist (List.filter f l) l.
Proof.
  induction l as [|x l IH]; cbn; [constructor |].
  destruct (f x); now constructor.
Qed.

Lemma filter_all {A} (f : A -> bool) (l : list A) :
  (forall x, f x = true) -> List.filter f l = l.
Proof.
  intros Hf. induction l as [|x l IH]; cbn; [reflexivity |].
  now rewrite Hf, IH.
Qed.

(** X1. After Repository.CreateTask has stored a task, GetTaskByID on the
    task's ID returns the pointer that was handed in, and GetTaskByID on
    every other ID answers as it did before. *)
Theorem repository_create_then_get clock w task t :
  heap w !! task = Some t -> 0 <= ID t ->
  exists w',
    repository.CreateTask clock task w = (Ok task, w') /\
    repository.GetTaskByID (ID t) w' = (Ok task, w') /\
    forall id, id <> ID t ->
      fst (repository.GetTaskByID id w') = fst (repository.GetTaskByID id w).
Proof.
  intros Ht Hpos. eexists.
  split; [eapply repository_CreateTask_ok; eassumption |]. split.
  - apply repository_GetTaskByID_found. cbn [tasks]. apply lookup_insert_eq.
  - intros id Hne. unfold repository.GetTaskByID. mstep.
    rewrite lookup_insert_ne by congruence.
    destruct (tasks w !! id); reflexivity.
Qed.

Lemma repository_create_then_get_witness :
  exists w',
    repository.CreateTask demo_clock 1%positive demo_world
      = (Ok 1%positive, w') /\
    repository.GetTaskByID 7 w' = (Ok 1%positive, w') /\
    forall id, id <> 7 ->
      fst (repository.GetTaskByID id w')
      = fst (repository.GetTaskByID id demo_world).
Proof.
  apply (repository_create_then_get demo_clock demo_world 1%positive demo_task).
  - reflexivity.
  - cbn. lia.
Defined.

(** X2. Repository.UpdateTask writes only the stored entry: it returns the
    stored pointer, which takes the title, description and status of the
    task handed in and keeps its ID; the map, and every other task object
    (the one handed in too, when it is not the stored one), stay as they
    were. *)
Theorem repository_UpdateTask_writes_entry clock w task t e te :
  heap w !! task = Some t -> tasks w !! ID t = Some e ->
  heap w !! e = Some te ->
  exists w' te',
    repository.UpdateTask clock task w = (Ok e, w') /\
    tasks w' = tasks w /\
    heap w' !! e = Some te' /\
    Title te' = Title t /\ Description te' = Description t /\
    Status te' = Status t /\ ID te' = ID te /\
    forall q, q <> e -> heap w' !! q = heap w !! q.
Proof.
  intros Ht He Hte. eexists; eexists.
  split; [eapply repository_UpdateTask_ok; eassumption |].
  cbn [tasks heap]. rewrite lookup_insert_eq.
  repeat split; try reflexivity.
  intros q Hq. now rewrite lookup_insert_ne.
Qed.

Lemma repository_UpdateTask_writes_entry_witness :
  exists w' te',
    repository.UpdateTask demo_clock 1%positive demo_world
      = (Ok 1%positive, w') /\
    tasks w' = tasks demo_world /\
    heap w' !! 1%positive = Some te' /\
    Title te' = Title demo_task /\ Description te' = Description demo_task /\
    Status te' = Status demo_task /\ ID te' = ID demo_task /\
    forall q, q <> 1%positive -> heap w' !! q = heap demo_world !! q.
Proof.
  apply (repository_UpdateTask_writes_entry demo_clock demo_world 1%positive
           demo_task 1%positive demo_task); reflexivity.
Defined.

(** X3. In a well-formed store, Repository.UpdateTask fails exactly when
    no task is stored under the ID of the task handed in; the error is
    ErrTaskNotFound and the state, the clock included, is untouched. *)
Theorem repository_UpdateTask_missing clock w task t :
  wf w -> heap w !! task = Some t ->
  ((exists e, fst (repository.UpdateTask clock task w) = Err e)
   <-> tasks w !! ID t = None) /\
  (tasks w !! ID t = None ->
   repository.UpdateTask clock task w = (Err (Plain ErrTaskNotFound), w)).
Proof.
  intros Hwf Ht. split; [split |].
  - intros (e & He). destruct (tasks w !! ID t) as [p|] eqn:Hid; [| reflexivity].
    destruct (Hwf _ _ Hid) as (te & Hte & _).
    erewrite repository_UpdateTask_ok in He by eassumption. discriminate.
  - intros Hid. eexists.
    erewrite repository_UpdateTask_absent by eassumption. reflexivity.
  - intros Hid. eapply repository_UpdateTask_absent; eassumption.
Qed.

Lemma repository_UpdateTask_missing_witness :
  ((exists e, fst (repository.UpdateTask demo_clock 1%positive
                     (mkWorld (heap demo_world) ∅ 0)) = Err e)
   <-> (∅ : gmap Z loc) !! 7 = None) /\
  ((∅ : gmap Z loc) !! 7 = None ->
   repository.UpdateTask demo_clock 1%positive (mkWorld (heap demo_world) ∅ 0)
     = (Err (Plain ErrTaskNotFound), mkWorld (heap demo_world) ∅ 0)).
Proof.
  apply (repository_UpdateTask_missing demo_clock
           (mkWorld (heap demo_world) ∅ 0) 1%positive demo_task).
  - intros id p H. cbn in H. rewrite lookup_empty in H. discriminate.
  - reflexivity.
Defined.

(** X4. Storing a task under an ID that was free and then deleting that ID
    gives back the map as it was. *)
Theorem repository_create_delete clock w task t :
  heap w !! task = Some t -> 0 <= ID t -> tasks w !! ID t = None ->
  exists w1 w2,
    repository.CreateTask clock task w = (Ok task, w1) /\
    repository.DeleteTask (ID t) w1 = (Ok tt, w2) /\
    tasks w2 = tasks w.
Proof.
  intros Ht Hpos Hfree. eexists; eexists.
  split; [eapply repository_CreateTask_ok; eassumption |]. split.
  - eapply repository_DeleteTask_found. cbn [tasks]. apply lookup_insert_eq.
  - cbn [tasks]. rewrite delete_insert_eq. now apply delete_id.
Qed.

Lemma repository_create_delete_witness :
  exists w1 w2,
    repository.CreateTask demo_clock 1%positive
      (mkWorld (heap demo_world) ∅ 0) = (Ok 1%positive, w1) /\
    repository.DeleteTask 7 w1 = (Ok tt, w2) /\
    tasks w2 = ∅.
Proof.
  apply (repository_create_delete demo_clock (mkWorld (heap demo_world) ∅ 0)
           1%positive demo_task).
  - reflexivity.
  - cbn. lia.
  - reflexivity.
Defined.

(** X5. In a well-formed store, whatever the order of each walk,
    GetAllTasks with the empty filter returns as many tasks as the map has
    entries, and GetAllTasks with a filter, walking the map in an order of
    its own, returns some of those tasks, none more often than the
    unfiltered list has it.  Neither call changes the state. *)
Theorem GetAllTasks_count range1 range2 w statusFilter :
  range1 (tasks w) ≡ₚ map_to_list (tasks w) ->
  range2 (tasks w) ≡ₚ map_to_list (tasks w) ->
  wf w ->
  exists ps qs,
    repository.GetAllTasks range1 EmptyString w = (Ok ps, w) /\
    List.length ps = size (tasks w) /\
    repository.GetAllTasks range2 statusFilter w = (Ok qs, w) /\
    qs ⊆+ ps /\
    (List.length qs <= List.length ps)%nat.
Proof.
  intros Hperm1 Hperm2 Hwf.
  exists (map snd (range1 (tasks w))).
  exists (List.filter (selected w statusFilter) (map snd (range2 (tasks w)))).
  assert (Hsound : forall id p,
            In (id, p) (range2 (tasks w)) -> is_Some (heap w !! p)).
  { intros id p Hin. apply list_elem_of_In in Hin. rewrite Hperm2 in Hin.
    apply elem_of_map_to_list in Hin.
    destruct (Hwf _ _ Hin) as (t & Ht & _). eauto. }
  assert (Hsub : List.filter (selected w statusFilter)
                   (map snd (range2 (tasks w)))
                 ⊆+ map snd (range1 (tasks w))).
  { transitivity (map snd (range2 (tasks w))).
    - apply sublist_submseteq, filter_sublist.
    - apply Permutation_submseteq, Permutation_map.
      now rewrite Hperm1, Hperm2. }
  split; [| split; [| split; [| split]]].
  - unfold repository.GetAllTasks.
    rewrite GetAllTasks_loop_ok by (intros H; now contradiction H).
    cbn [app]. rewrite filter_all; [reflexivity |].
    intros p. unfold selected. now case_decide.
  - rewrite length_map, Hperm1. apply length_map_to_list.
  - unfold repository.GetAllTasks.
    rewrite GetAllTasks_loop_ok; [reflexivity |]. intros _. exact Hsound.
  - exact Hsub.
  - now apply submseteq_length.
Qed.

Lemma GetAllTasks_count_witness :
  exists ps qs,
    repository.GetAllTasks map_to_list EmptyString demo_world
      = (Ok ps, demo_world) /\
    List.length ps = size (tasks demo_world) /\
    repository.GetAllTasks (fun m => rev (map_to_list m)) StatusCompleted
      demo_world = (Ok qs, demo_world) /\
    qs ⊆+ ps /\
    (List.length qs <= List.length ps)%nat.
Proof.
  apply (GetAllTasks_count map_to_list (fun m => rev (map_to_list m))
           demo_world StatusCompleted).
  - reflexivity.
  - symmetry. apply Permutation_rev.
  - exact demo_wf.
Defined.

Lemma create_each_spec clock ts :
  forall w,
    List.NoDup (map ID ts) ->
    Forall (fun t => 0 <= ID t) ts ->
    (forall t, In t ts -> tasks w !! ID t = None) ->
    exists w',
      create_each clock ts w = (Ok tt, w') /\
      size (tasks w') = (size (tasks w) + List.length ts)%nat /\
      (forall t, In t ts -> is_Some (tasks w' !! ID t)) /\
      (forall id, is_Some (tasks w !! id) -> is_Some (tasks w' !! id)).
Proof.
  induction ts as [|t ts IH]; intros w Hnd Hpos Hfree.
  - exists w. cbn. repeat split; try (intros ? []); auto with lia.
  - inversion Hnd as [|? ? Hnotin Hnd']; subst.
    inversion Hpos as [|? ? Ht Hpos']; subst.
    cbn [create_each]. unfold new. unfold bind at 1. cbn [fst snd].
    erewrite bind_Ok;
      [| eapply repository_CreateTask_ok;
         [cbn [heap]; apply lookup_insert_eq | exact Ht]].
    cbn [heap tasks ticks ID].
    match goal with |- context [create_each clock ts ?w1] =>
      destruct (IH w1) as (w' & Hrun & Hsize & Hin & Hkeep) end;
      [assumption | assumption | |].
    + intros t' Hin'. cbn [tasks]. rewrite lookup_insert_ne.
      * apply Hfree. now right.
      * intros Heq. apply Hnotin. rewrite Heq. now apply in_map.
    + exists w'. split; [exact Hrun |]. cbn [tasks] in *.
      split; [| split].
      * rewrite Hsize, map_size_insert_None by (apply Hfree; now left).
        cbn [List.length]. lia.
      * intros t' [<- | Hin']; [| now apply Hin].
        apply Hkeep. rewrite lookup_insert_eq. eauto.
      * intros id Hsome. apply Hkeep.
        destruct (decide (ID t = id)) as [<-|Hne].
        -- rewrite lookup_insert_eq. eauto.
        -- now rewrite lookup_insert_ne.
Qed.

(** X6. Creating tasks with pairwise distinct, non-negative IDs one after
    another in the empty store, in any order, succeeds for each of them,
    and GetAllTasks with the empty filter then returns exactly that many
    tasks, each ID being stored. *)
Theorem create_each_count clock range ts :
  (forall m, range m ≡ₚ map_to_list m) ->
  List.NoDup (map ID ts) ->
  Forall (fun t => 0 <= ID t) ts ->
  exists w' ps,
    create_each clock ts init = (Ok tt, w') /\
    repository.GetAllTasks range EmptyString w' = (Ok ps, w') /\
    List.length ps = List.length ts /\
    forall t, In t ts -> is_Some (tasks w' !! ID t).
Proof.
  intros Hperm Hnd Hpos.
  destruct (create_each_spec clock ts init Hnd Hpos)
    as (w' & Hrun & Hsize & Hin & _).
  { intros t _. apply lookup_empty. }
  exists w', (map snd (range (tasks w'))).
  split; [exact Hrun |]. split; [| split; [| exact Hin]].
  - unfold repository.GetAllTasks.
    rewrite GetAllTasks_loop_ok by (intros H; now contradiction H).
    cbn [app]. rewrite filter_all; [reflexivity |].
    intros p. unfold selected. now case_decide.
  - rewrite length_map, Hperm, length_map_to_list, Hsize.
    cbn [init tasks]. rewrite map_size_empty. lia.
Qed.

Lemma create_each_count_witness :
  exists w' ps,
    create_each demo_clock
      [mkTask 1 EmptyString EmptyString EmptyString 0 0;
       mkTask 3 EmptyString EmptyString EmptyString 0 0;
       mkTask 2 EmptyString EmptyString EmptyString 0 0] init = (Ok tt, w') /\
    repository.GetAllTasks map_to_list EmptyString w' = (Ok ps, w') /\
    List.length ps = 3%nat /\
    forall t,
      In t [mkTask 1 EmptyString EmptyString EmptyString 0 0;
            mkTask 3 EmptyString EmptyString EmptyString 0 0;
            mkTask 2 EmptyString EmptyString EmptyString 0 0] ->
      is_Some (tasks w' !! ID t).
Proof.
  apply (create_each_count demo_clock map_to_list
           [mkTask 1 EmptyString EmptyString EmptyString 0 0;
            mkTask 3 EmptyString EmptyString EmptyString 0 0;
            mkTask 2 EmptyString EmptyString EmptyString 0 0]).
  - intros m. reflexivity.
  - cbn. repeat constructor; cbn; intuition lia.
  - repeat constructor; cbn; lia.
Defined.

(** * Further properties of the use cases *)

(** The outcomes of UpdateTask in a well-formed store: the state is
    untouched, or the object stored under [id] is rewritten, keeping its ID
    and CreatedAt; it never panics. *)
Lemma updateTask_outcome clock range w id newTitle newDescription status :
  wf w ->
  fst (updateTask clock range id newTitle newDescription status w) <> Panic /\
  (snd (updateTask clock range id newTitle newDescription status w) = w \/
   exists p t t' n,
     stored w id p t /\
     snd (updateTask clock range id newTitle newDescription status w) =
       mkWorld (<[p := t']> (heap w)) (tasks w) n /\
     ID t' = ID t /\ CreatedAt t' = CreatedAt t).
Proof.
  intros Hwf.
  destruct (tasks w !! id) as [p|] eqn:Hid.
  2: { rewrite updateTask_absent by assumption. split; [discriminate | now left]. }
  destruct (Hwf id p Hid) as (t & Hp & HID).
  assert (Hst : stored w id p t) by (split; assumption).
  assert (Hok : forall r,
    r = (Ok p, mkWorld (<[p := merged t newTitle newDescription status
                               (clock (S (ticks w)))]> (heap w))
                 (tasks w) (S (S (ticks w)))) ->
    fst r <> Panic /\
    (snd r = w \/
     exists p t t' n, stored w id p t /\
       snd r = mkWorld (<[p := t']> (heap w)) (tasks w) n /\
       ID t' = ID t /\ CreatedAt t' = CreatedAt t)).
  { intros r ->. split; [discriminate |]. right.
    exists p, t. eexists; eexists. split; [exact Hst |].
    split; [reflexivity |]. split; reflexivity. }
  destruct (decide (newTitle <> EmptyString)) as [nt|nt].
  - destruct (validate.CheckTaskTitle newTitle) as [e|] eqn:Ht.
    { erewrite updateTask_title_err by eassumption.
      split; [discriminate | now left]. }
    destruct (decide (newDescription <> EmptyString)) as [nd|nd].
    + destruct (validate.CheckTaskDescription newDescription) as [e|] eqn:Hd.
      * erewrite updateTask_description_err by eauto.
        case_decide; [contradiction |]. split; [discriminate |]. right.
        exists p, t, (with_Title newTitle t), (ticks w).
        repeat split; try reflexivity; apply Hst.
      * apply Hok. eapply updateTask_ok; eauto.
    + apply Hok. eapply updateTask_ok; eauto. intros; contradiction.
  - destruct (decide (newDescription <> EmptyString)) as [nd|nd].
    + destruct (validate.CheckTaskDescription newDescription) as [e|] eqn:Hd.
      * erewrite updateTask_description_err by (eauto; intros; contradiction).
        split; [discriminate |]. apply dec_stable in nt.
        case_decide; [now left | contradiction].
      * apply Hok. eapply updateTask_ok; eauto. intros; contradiction.
    + apply Hok. eapply updateTask_ok; eauto; intros; contradiction.
Qed.

(** X7. Whatever repository the use case is given, CreateTask with a title
    or a description that fails its check returns an ErrValidation error
    and leaves the state as it was: the repository is not called, no task
    object is made and the clock is not read. *)
Theorem usecase_CreateTask_rejected clock (r : app.TaskRepository)
    title description w :
  validate.CheckTaskTitle title <> None \/
  validate.CheckTaskDescription description <> None ->
  exists e,
    usecase.CreateTask clock r title description w = (Err e, w) /\
    Is e ErrValidation = true.
Proof.
  intros H. unfold usecase.CreateTask.
  destruct (validate.CheckTaskTitle title) as [e|] eqn:H1.
  { exists e. split; [reflexivity | eapply CheckTaskTitle_kind; eassumption]. }
  destruct (validate.CheckTaskDescription description) as [e|] eqn:H2.
  { exists e. split; [reflexivity |].
    eapply CheckTaskDescription_kind; eassumption. }
  destruct H as [H | H]; now contradiction H.
Qed.

Lemma usecase_CreateTask_rejected_witness :
  exists e,
    usecase.CreateTask demo_clock (repo demo_clock map_to_list) "ab"
      "too short a title" demo_world = (Err e, demo_world) /\
    Is e ErrValidation = true.
Proof.
  apply (usecase_CreateTask_rejected demo_clock (repo demo_clock map_to_list)
           "ab" "too short a title" demo_world).
  left. discriminate.
Defined.

(** X8. Two tasks created while the clock stays within one millisecond
    receive the same ID: the second create succeeds too and takes the
    entry over, so that GetTask on the ID returns the second task and no
    ID leads to the first one any more. *)
Theorem createTask_same_millisecond clock range w
    title1 description1 title2 description2 :
  wf w ->
  validate.CheckTaskTitle title1 = None ->
  validate.CheckTaskDescription description1 = None ->
  validate.CheckTaskTitle title2 = None ->
  validate.CheckTaskDescription description2 = None ->
  0 <= next_id clock w ->
  Z.quot (UnixNano (clock (4 + ticks w)%nat)) Millisecond
    = Z.quot (UnixNano (clock (ticks w))) Millisecond ->
  exists p1 p2 w1 w2 t2,
    createTask clock range title1 description1 w = (Ok p1, w1) /\
    createTask clock range title2 description2 w1 = (Ok p2, w2) /\
    p1 <> p2 /\
    getTask clock range (next_id clock w) w2 = (Ok p2, w2) /\
    heap w2 !! p2 = Some t2 /\ Title t2 = title2 /\
    forall id, tasks w2 !! id <> Some p1.
Proof.
  intros Hwf H1 H2 H3 H4 Hid Hsame.
  set (p1 := fresh (dom (heap w))).
  set (w1 := mkWorld (<[p1 := mkTask (next_id clock w) title1 description1
                               StatusPending (clock (3 + ticks w)%nat)
                               (clock (3 + ticks w)%nat)]> (heap w))
               (<[next_id clock w := p1]> (tasks w)) (4 + ticks w)%nat).
  assert (Hc1 : createTask clock range title1 description1 w = (Ok p1, w1))
    by (apply createTask_ok; assumption).
  assert (Hid1 : next_id clock w1 = next_id clock w) by exact Hsame.
  assert (Hc2 := createTask_ok clock range w1 title2 description2 H3 H4).
  rewrite Hid1 in Hc2. specialize (Hc2 Hid).
  set (p2 := fresh (dom (heap w1))) in *.
  assert (Hne : p1 <> p2).
  { intros Heq. apply (allocated_fresh w1 p1
      (mkTask (next_id clock w) title1 description1 StatusPending
         (clock (3 + ticks w)%nat) (clock (3 + ticks w)%nat))).
    - cbn [heap w1]. apply lookup_insert_eq.
    - exact Heq. }
  exists p1, p2, w1. eexists; eexists.
  split; [exact Hc1 |]. split; [exact Hc2 |]. split; [exact Hne |].
  split; [| split; [| split]].
  - apply getTask_found. cbn [tasks]. apply lookup_insert_eq.
  - cbn [heap]. apply lookup_insert_eq.
  - reflexivity.
  - intros id Hstored. cbn [tasks w1] in Hstored.
    destruct (decide (next_id clock w = id)) as [<-|Hneq].
    + rewrite lookup_insert_eq in Hstored. congruence.
    + rewrite !lookup_insert_ne in Hstored by assumption.
      destruct (Hwf _ _ Hstored) as (t & Ht & _).
      now apply (allocated_fresh w p1 t).
Qed.

Lemma createTask_same_millisecond_witness :
  exists p1 p2 w1 w2 t2,
    createTask demo_clock map_to_list "Buy milk" EmptyString demo_world
      = (Ok p1, w1) /\
    createTask demo_clock map_to_list "Buy bread" EmptyString w1
      = (Ok p2, w2) /\
    p1 <> p2 /\
    getTask demo_clock map_to_list (next_id demo_clock demo_world) w2
      = (Ok p2, w2) /\
    heap w2 !! p2 = Some t2 /\ Title t2 = "Buy bread" /\
    forall id, tasks w2 !! id <> Some p1.
Proof.
  apply (createTask_same_millisecond demo_clock map_to_list demo_world
           "Buy milk" EmptyString "Buy bread" EmptyString).
  - exact demo_wf.
  - reflexivity.
  - reflexivity.
  - reflexivity.
  - reflexivity.
  - vm_compute. discriminate.
  - vm_compute. reflexivity.
Defined.

(** X9. A successful CreateTask makes a new task object and touches
    nothing else: every task object that existed is unchanged, every entry
    under another ID is unchanged, and GetTask on the new ID returns the
    new task. *)
Theorem createTask_frame clock range w title description :
  validate.CheckTaskTitle title = None ->
  validate.CheckTaskDescription description = None ->
  0 <= next_id clock w ->
  exists p w',
    createTask clock range title description w = (Ok p, w') /\
    heap w !! p = None /\
    (forall q t, heap w !! q = Some t -> heap w' !! q = Some t) /\
    (forall id, id <> next_id clock w -> tasks w' !! id = tasks w !! id) /\
    getTask clock range (next_id clock w) w' = (Ok p, w').
Proof.
  intros H1 H2 Hid. eexists; eexists.
  split; [apply createTask_ok; assumption |].
  split; [| split; [| split]].
  - apply not_elem_of_dom. apply is_fresh.
  - intros q t Hq. cbn [heap]. rewrite lookup_insert_ne; [assumption |].
    intros <-. eapply allocated_fresh; eauto.
  - intros id Hne. cbn [tasks]. now rewrite lookup_insert_ne.
  - apply getTask_found. cbn [tasks]. apply lookup_insert_eq.
Qed.

Lemma createTask_frame_witness :
  exists p w',
    createTask demo_clock map_to_list "Buy milk" EmptyString demo_world
      = (Ok p, w') /\
    heap demo_world !! p = None /\
    (forall q t, heap demo_world !! q = Some t -> heap w' !! q = Some t) /\
    (forall id, id <> next_id demo_clock demo_world ->
       tasks w' !! id = tasks demo_world !! id) /\
    getTask demo_clock map_to_list (next_id demo_clock demo_world) w'
      = (Ok p, w').
Proof.
  apply (createTask_frame demo_clock map_to_list demo_world "Buy milk"
           EmptyString).
  - reflexivity.
  - reflexivity.
  - vm_compute. discriminate.
Defined.

(** X10. While the clock does not run backwards and reads a time of the
    Unix era, the ID of a created task is the Unix time in milliseconds of
    the first reading CreateTask takes, and it does not lie after the
    task's CreatedAt. *)
Theorem createTask_id_timestamp clock range w title description :
  validate.CheckTaskTitle title = None ->
  validate.CheckTaskDescription description = None ->
  monotone clock ->
  in_epoch (clock (ticks w)) ->
  exists p w' t,
    createTask clock range title description w = (Ok p, w') /\
    heap w' !! p = Some t /\
    ID t = clock (ticks w) / Millisecond /\
    ID t * Millisecond <= CreatedAt t.
Proof.
  intros H1 H2 Hmono [Hlo Hhi].
  assert (Hn : next_id clock w = clock (ticks w) / Millisecond).
  { unfold next_id, UnixNano, wrap64, Millisecond.
    replace ((clock (ticks w) + 2 ^ 63) mod 2 ^ 64 - 2 ^ 63)
      with (clock (ticks w)) by (rewrite Z.mod_small by lia; lia).
    apply Z.quot_div_nonneg; lia. }
  assert (Hid : 0 <= next_id clock w).
  { rewrite Hn. apply Z.div_pos; unfold Millisecond; lia. }
  exists (fresh (dom (heap w))). eexists.
  exists (mkTask (next_id clock w) title description StatusPending
            (clock (3 + ticks w)%nat) (clock (3 + ticks w)%nat)).
  split; [apply createTask_ok; assumption |].
  split; [cbn [heap]; apply lookup_insert_eq |].
  cbn [ID CreatedAt]. split; [exact Hn |].
  rewrite Hn.
  pose proof (clock_le clock Hmono (ticks w) (3 + ticks w) ltac:(lia)).
  pose proof (Z.mul_div_le (clock (ticks w)) Millisecond
                ltac:(unfold Millisecond; lia)).
  lia.
Qed.

Lemma createTask_id_timestamp_witness :
  exists p w' t,
    createTask demo_clock map_to_list "Buy milk" EmptyString demo_world
      = (Ok p, w') /\
    heap w' !! p = Some t /\
    ID t = demo_clock (ticks demo_world) / Millisecond /\
    ID t * Millisecond <= CreatedAt t.
Proof.
  apply (createTask_id_timestamp demo_clock map_to_list demo_world "Buy milk"
           EmptyString).
  - reflexivity.
  - reflexivity.
  - intros n. unfold demo_clock. lia.
  - unfold in_epoch, demo_clock. cbn. lia.
Defined.

(** X11. Updating a stored task twice with the same request gives, the
    second time, the title, description, status and CreatedAt the first
    update left; the map is as before. *)
Theorem updateTask_twice clock range w id p t newTitle newDescription status :
  stored w id p t -> ID t = id ->
  (newTitle <> EmptyString -> validate.CheckTaskTitle newTitle = None) ->
  (newDescription <> EmptyString ->
   validate.CheckTaskDescription newDescription = None) ->
  exists w1 w2 t1 t2,
    updateTask clock range id newTitle newDescription status w = (Ok p, w1) /\
    updateTask clock range id newTitle newDescription status w1 = (Ok p, w2) /\
    heap w1 !! p = Some t1 /\ heap w2 !! p = Some t2 /\
    Title t2 = Title t1 /\ Description t2 = Description t1 /\
    Status t2 = Status t1 /\ CreatedAt t2 = CreatedAt t1 /\
    tasks w2 = tasks w.
Proof.
  intros Hst HID Ht Hd.
  pose proof (updateTask_ok clock range w id p t newTitle newDescription
                status Hst HID Ht Hd) as H1.
  set (t1 := merged t newTitle newDescription status (clock (S (ticks w)))) in *.
  set (w1 := mkWorld (<[p := t1]> (heap w)) (tasks w) (S (S (ticks w)))) in *.
  assert (Hst1 : stored w1 id p t1).
  { split; [apply Hst | cbn [heap w1]; apply lookup_insert_eq]. }
  pose proof (updateTask_ok clock range w1 id p t1 newTitle newDescription
                status Hst1 HID Ht Hd) as H2.
  exists w1. eexists. exists t1. eexists.
  split; [exact H1 |]. split; [exact H2 |].
  split; [apply Hst1 |]. cbn [heap tasks].
  split; [apply lookup_insert_eq |].
  unfold merged, t1. cbn.
  repeat split; repeat case_decide; reflexivity.
Qed.

Lemma updateTask_twice_witness :
  exists w1 w2 t1 t2,
    updateTask demo_clock map_to_list 7 "Write the report" EmptyString
      StatusInProgress demo_world = (Ok 1%positive, w1) /\
    updateTask demo_clock map_to_list 7 "Write the report" EmptyString
      StatusInProgress w1 = (Ok 1%positive, w2) /\
    heap w1 !! 1%positive = Some t1 /\ heap w2 !! 1%positive = Some t2 /\
    Title t2 = Title t1 /\ Description t2 = Description t1 /\
    Status t2 = Status t1 /\ CreatedAt t2 = CreatedAt t1 /\
    tasks w2 = tasks demo_world.
Proof.
  apply (updateTask_twice demo_clock map_to_list demo_world 7 1%positive
           demo_task "Write the report" EmptyString StatusInProgress).
  - exact demo_stored.
  - reflexivity.
  - intros _. reflexivity.
  - intros H. exfalso. apply H. reflexivity.
Defined.

(** X12. In a well-formed store UpdateTask, whether it succeeds or fails,
    never changes the map, never touches a task object other than the one
    stored under the given ID, and never changes the ID or the CreatedAt
    of any task object. *)
Theorem updateTask_frame clock range w id newTitle newDescription status :
  wf w ->
  tasks (snd (updateTask clock range id newTitle newDescription status w))
    = tasks w /\
  (forall q t,
     heap w !! q = Some t -> tasks w !! id <> Some q ->
     heap (snd (updateTask clock range id newTitle newDescription status w))
       !! q = Some t) /\
  (forall q t,
     heap w !! q = Some t ->
     exists t',
       heap (snd (updateTask clock range id newTitle newDescription status w))
         !! q = Some t' /\
       ID t' = ID t /\ CreatedAt t' = CreatedAt t).
Proof.
  intros Hwf.
  destruct (updateTask_outcome clock range w id newTitle newDescription
              status Hwf) as [_ [-> | (p & t0 & t' & n & Hst & -> & HI & HC)]].
  - split; [reflexivity |]. split; [auto |]. eauto.
  - cbn [tasks heap]. split; [reflexivity |]. split.
    + intros q t Hq Hne. rewrite lookup_insert_ne; [assumption |].
      intros <-. apply Hne. apply Hst.
    + intros q t Hq. destruct (decide (p = q)) as [<-|Hne].
      * destruct Hst as [_ Hp]. rewrite lookup_insert_eq.
        exists t'. simplify_eq. auto.
      * exists t. now rewrite lookup_insert_ne.
Qed.

Lemma updateTask_frame_witness :
  tasks (snd (updateTask demo_clock map_to_list 7 "New title" long_description
                EmptyString demo_world)) = tasks demo_world /\
  (forall q t,
     heap demo_world !! q = Some t -> tasks demo_world !! 7 <> Some q ->
     heap (snd (updateTask demo_clock map_to_list 7 "New title"
                  long_description EmptyString demo_world)) !! q = Some t) /\
  (forall q t,
     heap demo_world !! q = Some t ->
     exists t',
       heap (snd (updateTask demo_clock map_to_list 7 "New title"
                    long_description EmptyString demo_world)) !! q = Some t' /\
       ID t' = ID t /\ CreatedAt t' = CreatedAt t).
Proof.
  apply (updateTask_frame demo_clock map_to_list demo_world 7 "New title"
           long_description EmptyString).
  exact demo_wf.
Defined.

Lemma stamped_init clock : stamped clock init.
Proof.
  intros id p t [H _]. cbn in H. rewrite lookup_empty in H. discriminate.
Qed.

Lemma transition_stamped clock w w' :
  monotone clock -> wf w -> stamped clock w ->
  transition clock w w' -> stamped clock w'.
Proof.
  intros Hmono Hwf Hs Htr.
  destruct Htr as [|t Hid Hc Hu|t|id p t title Hst|id p t t' Hst HI HC HU|id];
    intros i q tq [Hq Hh]; cbn [tasks heap ticks] in *.
  - apply (Hs i q tq). now split.
  - pose proof (clock_le clock Hmono (ticks w) (4 + ticks w) ltac:(lia)).
    pose proof (clock_le clock Hmono (3 + ticks w) (4 + ticks w) ltac:(lia)).
    destruct (decide (fresh (dom (heap w)) = q)) as [<-|Hq'].
    + rewrite lookup_insert_eq in Hh. simplify_eq. lia.
    + rewrite lookup_insert_ne in Hh by assumption.
      destruct (decide (ID t = i)) as [<-|Hne].
      * rewrite lookup_insert_eq in Hq. congruence.
      * rewrite lookup_insert_ne in Hq by assumption.
        pose proof (Hs i q tq (conj Hq Hh)). lia.
  - pose proof (clock_le clock Hmono (ticks w) (3 + ticks w) ltac:(lia)).
    destruct (Hwf _ _ Hq) as (t0 & Ht0 & _).
    rewrite lookup_insert_ne in Hh
      by (intros <-; eapply allocated_fresh; eauto).
    pose proof (Hs i q tq (conj Hq Hh)). lia.
  - destruct (decide (p = q)) as [->|Hne].
    + rewrite lookup_insert_eq in Hh. simplify_eq.
      pose proof (Hs id q t Hst). cbn. lia.
    + rewrite lookup_insert_ne in Hh by assumption.
      apply (Hs i q tq). now split.
  - pose proof (clock_le clock Hmono (ticks w) (S (ticks w)) ltac:(lia)).
    pose proof (clock_le clock Hmono (S (ticks w)) (S (S (ticks w)))
                  ltac:(lia)).
    destruct (decide (p = q)) as [->|Hne].
    + rewrite lookup_insert_eq in Hh. simplify_eq. lia.
    + rewrite lookup_insert_ne in Hh by assumption.
      pose proof (Hs i q tq (conj Hq Hh)). lia.
  - apply lookup_delete_Some in Hq as [_ Hq].
    apply (Hs i q tq). now split.
Qed.

Lemma run_stamped clock range rs :
  monotone clock ->
  forall w, wf w -> stamped clock w ->
    wf (run clock range rs w) /\ stamped clock (run clock range rs w).
Proof.
  intros Hmono. induction rs as [|r rs IH]; intros w Hwf Hs; cbn; [easy |].
  pose proof (serve_transition clock range w r Hwf) as Htr.
  apply IH.
  - eapply transition_wf; eassumption.
  - eapply transition_stamped; eassumption.
Qed.

(** X13. While the clock does not run backwards, UpdatedAt never moves
    back: in every state the service reaches no stored task carries an
    UpdatedAt later than the clock's next reading, and in such a state a
    successful UpdateTask leaves an UpdatedAt that is neither before the
    previous one nor before the reading at which the call began. *)
Theorem updateTask_UpdatedAt_advances clock range :
  monotone clock ->
  (forall rs, stamped clock (run clock range rs init)) /\
  (forall w id p t newTitle newDescription status,
     stamped clock w ->
     stored w id p t -> ID t = id ->
     (newTitle <> EmptyString -> validate.CheckTaskTitle newTitle = None) ->
     (newDescription <> EmptyString ->
      validate.CheckTaskDescription newDescription = None) ->
     exists w' t',
       updateTask clock range id newTitle newDescription status w
         = (Ok p, w') /\
       heap w' !! p = Some t' /\
       UpdatedAt t <= UpdatedAt t' /\
       clock (ticks w) <= UpdatedAt t').
Proof.
  intros Hmono. split.
  - intros rs. apply run_stamped; [assumption | | apply stamped_init].
    apply (good_init clock).
  - intros w id p t nt nd ns Hs Hst HID Ht Hd.
    eexists; eexists. split; [eapply updateTask_ok; eassumption |].
    cbn [heap]. split; [apply lookup_insert_eq |].
    unfold merged. cbn [UpdatedAt].
    pose proof (Hs id p t Hst). specialize (Hmono (ticks w)). lia.
Qed.

Lemma updateTask_UpdatedAt_advances_witness :
  exists w' t',
    updateTask demo_clock map_to_list 7 EmptyString "Second draft"
      EmptyString demo_world = (Ok 1%positive, w') /\
    heap w' !! 1%positive = Some t' /\
    UpdatedAt demo_task <= UpdatedAt t' /\
    demo_clock (ticks demo_world) <= UpdatedAt t'.
Proof.
  assert (Hmono : monotone demo_clock)
    by (intros n; unfold demo_clock; lia).
  apply (proj2 (updateTask_UpdatedAt_advances demo_clock map_to_list Hmono)
           demo_world 7 1%positive demo_task EmptyString "Second draft"
           EmptyString).
  - intros id p t [H1 H2]. cbn in H1, H2.
    apply lookup_singleton_Some in H1 as [<- <-].
    apply lookup_singleton_Some in H2 as [_ <-].
    cbn. unfold demo_clock. lia.
  - exact demo_stored.
  - reflexivity.
  - intros H. exfalso. apply H. reflexivity.
  - intros _. reflexivity.
Defined.

(** X14. GetTask and ListTasks only read: whatever the state and the
    argument, and whether they succeed or not, the state after the call is
    the state before it. *)
Theorem reads_leave_state clock range w id statusFilter :
  snd (getTask clock range id w) = w /\
  snd (listTasks clock range statusFilter w) = w.
Proof.
  split.
  - destruct (tasks w !! id) as [p|] eqn:Hid.
    + now erewrite getTask_found by eassumption.
    + now rewrite getTask_absent by assumption.
  - apply listTasks_frame.
Qed.

(** X15. In every state the service reaches from the empty store, the
    pointer stored under an ID refers to a task object whose ID field is
    that ID; so two different IDs never lead to the same task object. *)
Theorem run_keys_match_ids clock range rs :
  (forall id p,
     tasks (run clock range rs init) !! id = Some p ->
     exists t, heap (run clock range rs init) !! p = Some t /\ ID t = id) /\
  (forall id id' p,
     tasks (run clock range rs init) !! id = Some p ->
     tasks (run clock range rs init) !! id' = Some p ->
     id = id').
Proof.
  destruct (run_structure clock range rs init) as [Hwf _];
    try apply (good_init clock).
  split; [exact Hwf |]. intros id id' p. now apply wf_inj.
Qed.

Lemma run_keys_match_ids_witness :
  exists t,
    heap (run demo_clock map_to_list
            [ReqCreate "Buy milk" EmptyString] init) !! 1%positive = Some t /\
    ID t = 1700000000000.
Proof.
  apply (proj1 (run_keys_match_ids demo_clock map_to_list
                  [ReqCreate "Buy milk" EmptyString])).
  vm_compute. reflexivity.
Defined.

Lemma createTask_no_panic clock range w title description :
  fst (createTask clock range title description w) <> Panic.
Proof.
  destruct (validate.CheckTaskTitle title) as [e|] eqn:H1.
  { erewrite createTask_title_err by eassumption. discriminate. }
  destruct (validate.CheckTaskDescription description) as [e|] eqn:H2.
  { erewrite createTask_description_err by eassumption. discriminate. }
  destruct (Z.le_gt_cases 0 (next_id clock w)).
  - rewrite createTask_ok by assumption. discriminate.
  - rewrite createTask_invalid_id by assumption. discriminate.
Qed.

(** X16. In every state the service reaches from the empty store, none of
    the five use cases panics on a missing task object, whatever its
    arguments: each returns a value or an error. *)
Theorem service_never_panics clock range rs
    title description id statusFilter newTitle newDescription status :
  (forall m, range m ≡ₚ map_to_list m) ->
  fst (createTask clock range title description (run clock range rs init))
    <> Panic /\
  fst (getTask clock range id (run clock range rs init)) <> Panic /\
  fst (listTasks clock range statusFilter (run clock range rs init))
    <> Panic /\
  fst (updateTask clock range id newTitle newDescription status
         (run clock range rs init)) <> Panic /\
  fst (deleteTask clock range id (run clock range rs init)) <> Panic.
Proof.
  intros Hperm.
  destruct (run_structure clock range rs init) as [Hwf _];
    try apply (good_init clock).
  set (w := run clock range rs init) in *.
  split; [apply createTask_no_panic |]. split; [| split; [| split]].
  - destruct (tasks w !! id) as [p|] eqn:Hid.
    + erewrite getTask_found by eassumption. discriminate.
    + rewrite getTask_absent by assumption. discriminate.
  - rewrite listTasks_ok; [discriminate | |].
    + intros _ i p Hp. destruct (Hwf _ _ Hp) as (t & Ht & _). eauto.
    + intros i p Hin. apply list_elem_of_In in Hin. rewrite Hperm in Hin.
      now apply elem_of_map_to_list in Hin.
  - now apply updateTask_outcome.
  - destruct (tasks w !! id) as [p|] eqn:Hid.
    + erewrite deleteTask_found by eassumption. discriminate.
    + rewrite deleteTask_absent by assumption. discriminate.
Qed.

Lemma service_never_panics_witness :
  fst (createTask demo_clock map_to_list "Buy bread" EmptyString
         (run demo_clock map_to_list [ReqCreate "Buy milk" EmptyString] init))
    <> Panic /\
  fst (getTask demo_clock map_to_list 5
         (run demo_clock map_to_list [ReqCreate "Buy milk" EmptyString] init))
    <> Panic /\
  fst (listTasks demo_clock map_to_list StatusPending
         (run demo_clock map_to_list [ReqCreate "Buy milk" EmptyString] init))
    <> Panic /\
  fst (updateTask demo_clock map_to_list 5 "Buy oat milk" EmptyString
         StatusCompleted
         (run demo_clock map_to_list [ReqCreate "Buy milk" EmptyString] init))
    <> Panic /\
  fst (deleteTask demo_clock map_to_list 5
         (run demo_clock map_to_list [ReqCreate "Buy milk" EmptyString] init))
    <> Panic.
Proof.
  apply (service_never_panics demo_clock map_to_list
           [ReqCreate "Buy milk" EmptyString] "Buy bread" EmptyString 5
           StatusPending "Buy oat milk" EmptyString StatusCompleted).
  intros m. reflexivity.
Defined.

(** X17. CreateTask fails in two ways only.  Either a check rejects the
    input: the error is ErrValidation and the state is untouched.  Or the
    ID derived from the clock is negative: the error is ErrInvalidID, and
    although a task object was made and the clock read, the map is as
    before.  It never fails with ErrTaskNotFound. *)
Theorem createTask_errors clock range w title description e :
  fst (createTask clock range title description w) = Err e ->
  Is e ErrTaskNotFound = false /\
  ((Is e ErrValidation = true /\
    snd (createTask clock range title description w) = w) \/
   (e = Plain ErrInvalidID /\ next_id clock w < 0 /\
    tasks (snd (createTask clock range title description w)) = tasks w)).
Proof.
  intros He.
  destruct (validate.CheckTaskTitle title) as [e1|] eqn:H1.
  { erewrite createTask_title_err in * by eassumption. cbn in He.
    simplify_eq. apply CheckTaskTitle_kind in H1.
    split; [destruct e as [[]|[]]; cbn in *; congruence | now left]. }
  destruct (validate.CheckTaskDescription description) as [e2|] eqn:H2.
  { erewrite createTask_description_err in * by eassumption. cbn in He.
    simplify_eq. apply CheckTaskDescription_kind in H2.
    split; [destruct e as [[]|[]]; cbn in *; congruence | now left]. }
  destruct (Z.le_gt_cases 0 (next_id clock w)).
  - rewrite createTask_ok in He by assumption. discriminate.
  - rewrite createTask_invalid_id in * by assumption. cbn in He.
    simplify_eq. split; [reflexivity |]. right. repeat split. lia.
Qed.

Lemma createTask_errors_witness :
  Is (Wrapf ErrValidation "task title cannot be empty") ErrTaskNotFound
    = false /\
  ((Is (Wrapf ErrValidation "task title cannot be empty") ErrValidation
      = true /\
    snd (createTask demo_clock map_to_list EmptyString "no title" demo_world)
      = demo_world) \/
   (Wrapf ErrValidation "task title cannot be empty" = Plain ErrInvalidID /\
    next_id demo_clock demo_world < 0 /\
    tasks (snd (createTask demo_clock map_to_list EmptyString "no title"
                  demo_world)) = tasks demo_world)).
Proof.
  apply (createTask_errors demo_clock map_to_list demo_world EmptyString
           "no title" (Wrapf ErrValidation "task title cannot be empty")).
  reflexivity.
Defined.

(** * Further properties of validation *)

Lemma bytes_length s : List.length (utf8.bytes s) = String.length s.
Proof.
  unfold utf8.bytes. rewrite length_map.
  induction s as [|a s IH]; cbn; [reflexivity | now rewrite IH].
Qed.

Lemma bytes_range s : Forall (fun b => 0 <= b < 256) (utf8.bytes s).
Proof.
  unfold utf8.bytes. induction s as [|a s IH]; cbn; constructor; [| exact IH].
  pose proof (N_ascii_bounded a). lia.
Qed.

Lemma decode_all_length fuel s :
  (List.length (utf8.decode_all fuel s) <= List.length s)%nat.
Proof.
  revert s. induction fuel as [|fuel IH]; intros s; cbn; [lia |].
  destruct s as [|s0 rest]; [cbn; lia |].
  destruct (utf8.DecodeRune (s0 :: rest)) as [r n] eqn:Hd.
  cbn [List.length]. specialize (IH (drop n (s0 :: rest))).
  rewrite length_drop in IH. cbn [List.length] in IH.
  apply DecodeRune_step in Hd as [[-> _] | [Hn _]]; lia.
Qed.

(** X18. A string never has more runes than bytes.  So a description of
    at most 5000 bytes always passes CheckTaskDescription, and a title of
    fewer than 3 bytes never passes CheckTaskTitle. *)
Theorem rune_count_at_most_bytes s title description :
  utf8.RuneCountInString s <= Z.of_nat (String.length s) /\
  ((String.length description <= 5000)%nat ->
   validate.CheckTaskDescription description = None) /\
  ((String.length title < 3)%nat ->
   validate.CheckTaskTitle title <> None).
Proof.
  assert (Hle : forall x,
            utf8.RuneCountInString x <= Z.of_nat (String.length x)).
  { intros x. unfold utf8.RuneCountInString, utf8.runes.
    pose proof (decode_all_length (List.length (utf8.bytes x)) (utf8.bytes x)).
    rewrite bytes_length in *. lia. }
  split; [apply Hle |]. split.
  - intros H. apply CheckTaskDescription_None.
    specialize (Hle description). lia.
  - intros H Hnone. apply CheckTaskTitle_None in Hnone as (_ & Hlen & _).
    specialize (Hle title). lia.
Qed.

Lemma rune_count_at_most_bytes_witness :
  utf8.RuneCountInString "Чай" <= Z.of_nat (String.length "Чай") /\
  validate.CheckTaskDescription "First draft" = None /\
  validate.CheckTaskTitle "ab" <> None.
Proof.
  destruct (rune_count_at_most_bytes "Чай" "ab" "First draft")
    as (H1 & H2 & H3).
  split; [exact H1 |]. split.
  - apply H2. vm_compute. lia.
  - apply H3. vm_compute. lia.
Defined.

Lemma decode_all_ascii_id fuel s :
  (List.length s <= fuel)%nat ->
  Forall (fun b => 0 <= b < 0x80) s ->
  utf8.decode_all fuel s = s.
Proof.
  revert s. induction fuel as [|fuel IH]; intros s Hlen Hall.
  - destruct s; [reflexivity | cbn in Hlen; lia].
  - destruct s as [|s0 rest]; [reflexivity |].
    inversion Hall as [|? ? Hs0 Hrest]; subst.
    cbn [utf8.decode_all]. unfold utf8.DecodeRune.
    destruct (Z.ltb_spec s0 0x80); [| lia].
    change (drop 1 (s0 :: rest)) with rest.
    rewrite IH; [reflexivity | cbn in Hlen; lia | assumption].
Qed.

(** X19. For a title made of ASCII bytes only, the runes are the bytes,
    and CheckTaskTitle accepts the title exactly when it has 3 to 200
    bytes, each of them a Latin letter, a digit, a tab, line feed, form
    feed, carriage return or space, or one of [. , ! ? -]. *)
Theorem CheckTaskTitle_ascii title :
  Forall (fun b => b < 0x80) (utf8.bytes title) ->
  utf8.runes title = utf8.bytes title /\
  (validate.CheckTaskTitle title = None <->
   (3 <= String.length title <= 200)%nat /\
   Forall title_rune (utf8.bytes title)).
Proof.
  intros Hascii.
  assert (Hr : utf8.runes title = utf8.bytes title).
  { unfold utf8.runes. apply decode_all_ascii_id; [lia |].
    pose proof (bytes_range title) as Hb.
    rewrite List.Forall_forall in *. intros b Hin.
    specialize (Hascii b Hin). specialize (Hb b Hin). lia. }
  split; [exact Hr |].
  rewrite CheckTaskTitle_None. unfold utf8.RuneCountInString.
  rewrite Hr, bytes_length. unfold title_rune. split.
  - intros (_ & Hlen & HF). split; [lia | exact HF].
  - intros (Hlen & HF). split; [| split; [lia | exact HF]].
    intros ->. cbn in Hlen. lia.
Qed.

Lemma CheckTaskTitle_ascii_witness :
  utf8.runes "Fix bug 42!" = utf8.bytes "Fix bug 42!" /\
  (validate.CheckTaskTitle "Fix bug 42!" = None <->
   (3 <= String.length "Fix bug 42!" <= 200)%nat /\
   Forall title_rune (utf8.bytes "Fix bug 42!")).
Proof.
  apply (CheckTaskTitle_ascii "Fix bug 42!").
  vm_compute. repeat constructor.
Defined.

Lemma land_le_l a b : 0 <= a -> Z.land a b <= a.
Proof.
  intros Ha.
  pose proof (Z.add_lor_land (Z.ldiff a b) (Z.land a b)) as H.
  rewrite Z.lor_ldiff_and in H.
  replace (Z.land (Z.ldiff a b) (Z.land a b)) with 0 in H.
  - assert (0 <= Z.ldiff a b) by (apply Z.ldiff_nonneg; now left). lia.
  - rewrite (Z.land_comm a b), Z.land_assoc, Z.land_ldiff. reflexivity.
Qed.

Lemma lor_ge_l a b : 0 <= a -> 0 <= b -> a <= Z.lor a b.
Proof.
  intros Ha Hb. pose proof (Z.add_lor_land a b).
  pose proof (land_le_l b a Hb). rewrite Z.land_comm in H0. lia.
Qed.

Lemma lor_ge_r a b : 0 <= a -> 0 <= b -> b <= Z.lor a b.
Proof. intros Ha Hb. rewrite Z.lor_comm. now apply lor_ge_l. Qed.

Lemma land_low6 a : Z.land a 0x3F = a mod 64.
Proof. change 0x3F with (Z.ones 6). now rewrite Z.land_ones. Qed.

Lemma land_low4 a : Z.land a 0x0F = a mod 16.
Proof. change 0x0F with (Z.ones 4). now rewrite Z.land_ones. Qed.

Lemma land_low3 a : Z.land a 0x07 = a mod 8.
Proof. change 0x07 with (Z.ones 3). now rewrite Z.land_ones. Qed.

(** A rune decoded from three or four bytes is not below U+0800. *)
Lemma DecodeRune_wide s0 rest r n :
  utf8.DecodeRune (s0 :: rest) = (r, n) -> (3 <= n)%nat -> 0x800 <= r.
Proof.
  unfold utf8.DecodeRune, utf8.locb, utf8.hicb, utf8.RuneError. cbv zeta.
  intros H Hn.
  repeat (case_match; simplify_eq); zbool; try lia;
    rewrite ?land_low6, ?land_low4, ?land_low3, ?Z.shiftl_mul_pow2 by lia;
    repeat match goal with
    | |- context [Z.lor ?a ?b] =>
        lazymatch goal with
        | _ : a <= Z.lor a b |- _ => fail
        | _ =>
          assert (0 <= a)
            by (rewrite ?Z.lor_nonneg; Z.div_mod_to_equations; lia);
          assert (0 <= b)
            by (rewrite ?Z.lor_nonneg; Z.div_mod_to_equations; lia);
          pose proof (lor_ge_l a b ltac:(assumption) ltac:(assumption));
          pose proof (lor_ge_r a b ltac:(assumption) ltac:(assumption))
        end
    end;
    Z.div_mod_to_equations; lia.
Qed.

Lemma title_rune_bound r : title_rune r -> r < 0x800.
Proof.
  unfold title_rune, validate.in_class, validate.taskTitleClass. cbn.
  unfold utf8.between. intros H.
  repeat (apply orb_prop in H as [H | H]); zbool; try lia; discriminate.
Qed.

Lemma decode_all_bytes_bound fuel s :
  (List.length s <= fuel)%nat ->
  Forall title_rune (utf8.decode_all fuel s) ->
  (List.length s <= 2 * List.length (utf8.decode_all fuel s))%nat.
Proof.
  revert s. induction fuel as [|fuel IH]; intros s Hlen Hall.
  - cbn. lia.
  - destruct s as [|s0 rest]; [cbn; lia |].
    cbn [utf8.decode_all] in *.
    destruct (utf8.DecodeRune (s0 :: rest)) as [r n] eqn:Hd.
    inversion Hall as [|? ? Hr Hrest]; subst.
    assert (Hn : (1 <= n <= 2)%nat).
    { split.
      - apply DecodeRune_step in Hd as [[-> _] | [Hn _]]; lia.
      - destruct (le_lt_dec n 2) as [|Hwide]; [assumption |].
        apply DecodeRune_wide in Hd; [| lia].
        apply title_rune_bound in Hr. lia. }
    specialize (IH (drop n (s0 :: rest))).
    rewrite length_drop in IH. cbn [List.length] in *.
    specialize (IH ltac:(lia) Hrest). lia.
Qed.

(** X20. A title that CheckTaskTitle accepts is well inside the byte
    budget its rune bounds suggest: every accepted rune takes one or two
    bytes, so the title has at least 3 and at most 400 bytes. *)
Theorem accepted_title_bytes title :
  validate.CheckTaskTitle title = None ->
  (3 <= String.length title <= 400)%nat.
Proof.
  intros H. apply CheckTaskTitle_None in H as (_ & Hlen & HF).
  unfold utf8.RuneCountInString, utf8.runes in *.
  pose proof (decode_all_length (List.length (utf8.bytes title))
                (utf8.bytes title)) as Hlo.
  pose proof (decode_all_bytes_bound (List.length (utf8.bytes title))
                (utf8.bytes title) ltac:(lia) HF) as Hhi.
  rewrite bytes_length in *. lia.
Qed.

Lemma accepted_title_bytes_witness :
  (3 <= String.length "Купить хлеб" <= 400)%nat.
Proof.
  apply (accepted_title_bytes "Купить хлеб"). reflexivity.
Defined.

(** * Properties of the handlers *)

Lemma respondWithError_code err :
  delivery.code (delivery.respondWithError err) =
    (if Is err ErrTaskNotFound then 404 else 400).
Proof. destruct err as [[]|[]]; reflexivity. Qed.

(** X21. For every error the use cases return, respondWithError answers
    404 when it is ErrTaskNotFound and 400 otherwise, with the text of the
    error; the branch that answers 500 is never taken. *)
Theorem respondWithError_status err :
  delivery.respondWithError err =
    delivery.mkResponse
      (if Is err ErrTaskNotFound then 404 else 400)
      (delivery.Text (Error err)).
Proof.
  unfold delivery.respondWithError, delivery.http_Error.
  destruct err as [[]|[]]; reflexivity.
Qed.

(** X22. The handler of GET /tasks/{id} never changes the state.  In a
    well-formed store it answers 400 when the path value is not a decimal
    int64, 404 when it is but no task is stored under it, and otherwise
    200 with the stored task. *)
Theorem getTaskByPath_spec clock range w idStr :
  wf w ->
  snd (getTaskByPath clock range idStr w) = w /\
  (strconv.ParseInt idStr = None ->
   fst (getTaskByPath clock range idStr w) =
     Ok (delivery.mkResponse 400 (delivery.Text "invalid task ID"))) /\
  (forall id, strconv.ParseInt idStr = Some id -> tasks w !! id = None ->
   fst (getTaskByPath clock range idStr w) =
     Ok (delivery.mkResponse 404 (delivery.Text "task not found"))) /\
  (forall id p, strconv.ParseInt idStr = Some id -> tasks w !! id = Some p ->
   exists t,
     heap w !! p = Some t /\ ID t = id /\
     fst (getTaskByPath clock range idStr w) =
       Ok (delivery.mkResponse 200 (delivery.JSONTask t))).
Proof.
  intros Hwf. unfold getTaskByPath, delivery.GetTask, delivery.try, uc.
  cbn [app_usecase.GetTask].
  destruct (strconv.ParseInt idStr) as [id|] eqn:Hparse.
  - destruct (tasks w !! id) as [p|] eqn:Hid.
    + erewrite getTask_found by eassumption.
      destruct (Hwf _ _ Hid) as (t & Ht & HID).
      mstep. rewrite Ht. cbn.
      split; [reflexivity |]. split; [discriminate |]. split.
      * intros ? ? ?. simplify_eq.
      * intros id' p' ? ?. simplify_eq. eauto.
    + rewrite getTask_absent by assumption. cbn.
      split; [reflexivity |]. split; [discriminate |]. split.
      * intros. reflexivity.
      * intros id' p' ? ?. simplify_eq.
  - cbn. split; [reflexivity |]. split; [reflexivity |].
    split; intros; discriminate.
Qed.

Lemma getTaskByPath_spec_witness :
  snd (getTaskByPath demo_clock map_to_list "7" demo_world) = demo_world /\
  (strconv.ParseInt "7" = None ->
   fst (getTaskByPath demo_clock map_to_list "7" demo_world) =
     Ok (delivery.mkResponse 400 (delivery.Text "invalid task ID"))) /\
  (forall id, strconv.ParseInt "7" = Some id ->
   tasks demo_world !! id = None ->
   fst (getTaskByPath demo_clock map_to_list "7" demo_world) =
     Ok (delivery.mkResponse 404 (delivery.Text "task not found"))) /\
  (forall id p, strconv.ParseInt "7" = Some id ->
   tasks demo_world !! id = Some p ->
   exists t,
     heap demo_world !! p = Some t /\ ID t = id /\
     fst (getTaskByPath demo_clock map_to_list "7" demo_world) =
       Ok (delivery.mkResponse 200 (delivery.JSONTask t))).
Proof.
  apply (getTaskByPath_spec demo_clock map_to_list demo_world "7").
  exact demo_wf.
Defined.

(** X23. The handler of DELETE /tasks/{id} on a stored ID answers 204
    with an empty body; after that, GET and DELETE on the same path answer
    404.  A path value that is not a decimal int64 is answered with 400 and
    nothing is deleted. *)
Theorem deleteTaskByPath_spec clock range w idStr :
  (strconv.ParseInt idStr = None ->
   deleteTaskByPath clock range idStr w =
     (Ok (delivery.mkResponse 400 (delivery.Text "invalid task ID")), w)) /\
  (forall id p, strconv.ParseInt idStr = Some id -> tasks w !! id = Some p ->
   exists w',
     deleteTaskByPath clock range idStr w =
       (Ok (delivery.mkResponse 204 delivery.NoBody), w') /\
     getTaskByPath clock range idStr w' =
       (Ok (delivery.mkResponse 404 (delivery.Text "task not found")), w') /\
     deleteTaskByPath clock range idStr w' =
       (Ok (delivery.mkResponse 404 (delivery.Text "task not found")), w')).
Proof.
  unfold deleteTaskByPath, getTaskByPath, delivery.DeleteTask, delivery.GetTask,
    delivery.try, uc.
  cbn [app_usecase.GetTask app_usecase.DeleteTask].
  split.
  - intros ->. reflexivity.
  - intros id p -> Hid.
    erewrite deleteTask_found by eassumption.
    eexists. split; [reflexivity |].
    rewrite getTask_absent by (cbn [tasks]; apply lookup_delete_eq).
    rewrite deleteTask_absent by (cbn [tasks]; apply lookup_delete_eq).
    split; reflexivity.
Qed.

Lemma deleteTaskByPath_spec_witness :
  exists w',
    deleteTaskByPath demo_clock map_to_list "7" demo_world =
      (Ok (delivery.mkResponse 204 delivery.NoBody), w') /\
    getTaskByPath demo_clock map_to_list "7" w' =
      (Ok (delivery.mkResponse 404 (delivery.Text "task not found")), w') /\
    deleteTaskByPath demo_clock map_to_list "7" w' =
      (Ok (delivery.mkResponse 404 (delivery.Text "task not found")), w').
Proof.
  apply (proj2 (deleteTaskByPath_spec demo_clock map_to_list demo_world "7")
           7 1%positive).
  - reflexivity.
  - reflexivity.
Defined.

(** X24. The handler of POST /tasks always answers, with 201 or 400, and
    never 404 or 500.  It answers 201 exactly when the body decodes, the
    title and the description pass their checks and the ID derived from
    the clock is not negative; a body that does not decode is answered
    with 400 and leaves the state untouched. *)
Theorem postTasks_spec clock range w body :
  (exists resp w',
     postTasks clock range body w = (Ok resp, w') /\
     (delivery.code resp = 201 \/ delivery.code resp = 400) /\
     (delivery.code resp = 201 <->
      exists req,
        body = Some req /\
        validate.CheckTaskTitle (CreateTaskRequest.Title req) = None /\
        validate.CheckTaskDescription (CreateTaskRequest.Description req)
          = None /\
        0 <= next_id clock w)) /\
  (body = None ->
   postTasks clock range body w =
     (Ok (delivery.mkResponse 400 (delivery.Text "invalid request body")), w)).
Proof.
  split; [| intros ->; reflexivity].
  unfold postTasks, delivery.CreateTask, delivery.try, uc.
  cbn [app_usecase.CreateTask].
  destruct body as [[title description]|]; cbn [CreateTaskRequest.Title
    CreateTaskRequest.Description].
  2: { eexists; eexists. split; [reflexivity |]. cbn.
       split; [now right |]. split; [discriminate |].
       intros (req & Hreq & _). discriminate. }
  destruct (validate.CheckTaskTitle title) as [e|] eqn:H1.
  { erewrite createTask_title_err by eassumption.
    eexists; eexists. split; [reflexivity |].
    rewrite respondWithError_code.
    pose proof (CheckTaskTitle_kind _ _ H1) as Hk.
    assert (Hnf : Is e ErrTaskNotFound = false)
      by (destruct e as [[]|[]]; cbn in *; congruence).
    rewrite Hnf. split; [now right |]. split; [discriminate |].
    intros (req & Hreq & Hc & _). simplify_eq. cbn in Hc. congruence. }
  destruct (validate.CheckTaskDescription description) as [e|] eqn:H2.
  { erewrite createTask_description_err by eassumption.
    eexists; eexists. split; [reflexivity |].
    rewrite respondWithError_code.
    pose proof (CheckTaskDescription_kind _ _ H2) as Hk.
    assert (Hnf : Is e ErrTaskNotFound = false)
      by (destruct e as [[]|[]]; cbn in *; congruence).
    rewrite Hnf. split; [now right |]. split; [discriminate |].
    intros (req & Hreq & _ & Hc & _). simplify_eq. cbn in Hc. congruence. }
  destruct (Z.le_gt_cases 0 (next_id clock w)) as [Hid|Hid].
  - rewrite createTask_ok by assumption. mstep. rewrite lookup_insert_eq.
    eexists; eexists. split; [reflexivity |]. cbn [delivery.code].
    split; [now left |]. split; [| reflexivity].
    intros _. exists (CreateTaskRequest.mk title description). auto.
  - rewrite createTask_invalid_id by assumption.
    eexists; eexists. split; [reflexivity |]. cbn.
    split; [now right |]. split; [discriminate |].
    intros (req & _ & _ & _ & Hc). lia.
Qed.

Lemma postTasks_spec_witness :
  postTasks demo_clock map_to_list None demo_world =
    (Ok (delivery.mkResponse 400 (delivery.Text "invalid request body")),
     demo_world).
Proof.
  apply (proj2 (postTasks_spec demo_clock map_to_list demo_world None)).
  reflexivity.
Defined.

(** The four ways UpdateTask can end in a well-formed store. *)
Lemma updateTask_cases clock range w id newTitle newDescription status :
  wf w ->
  (tasks w !! id = None /\
   updateTask clock range id newTitle newDescription status w
     = (Err (Plain ErrTaskNotFound), w)) \/
  (exists e,
     Is e ErrValidation = true /\
     updateTask clock range id newTitle newDescription status w = (Err e, w)) \/
  (exists p t e,
     stored w id p t /\ Is e ErrValidation = true /\
     updateTask clock range id newTitle newDescription status w
       = (Err e, mkWorld (<[p := with_Title newTitle t]> (heap w))
                   (tasks w) (ticks w))) \/
  (exists p t,
     stored w id p t /\
     updateTask clock range id newTitle newDescription status w
       = (Ok p, mkWorld (<[p := merged t newTitle newDescription status
                                 (clock (S (ticks w)))]> (heap w))
                  (tasks w) (S (S (ticks w))))).
Proof.
  intros Hwf.
  destruct (tasks w !! id) as [p|] eqn:Hid.
  2: { left. split; [reflexivity | now apply updateTask_absent]. }
  right.
  destruct (Hwf id p Hid) as (t & Hp & HID).
  assert (Hst : stored w id p t) by (split; assumption).
  destruct (decide (newTitle <> EmptyString)) as [nt|nt].
  - destruct (validate.CheckTaskTitle newTitle) as [e|] eqn:Ht.
    { left. exists e. split; [eapply CheckTaskTitle_kind; eassumption |].
      eapply updateTask_title_err; eassumption. }
    destruct (decide (newDescription <> EmptyString)) as [nd|nd].
    + destruct (validate.CheckTaskDescription newDescription) as [e|] eqn:Hd.
      * right; left. exists p, t, e. split; [exact Hst |].
        split; [eapply CheckTaskDescription_kind; eassumption |].
        erewrite updateTask_description_err by eauto.
        case_decide; [contradiction | reflexivity].
      * right; right. exists p, t. split; [exact Hst |].
        eapply updateTask_ok; eauto.
    + right; right. exists p, t. split; [exact Hst |].
      eapply updateTask_ok; eauto. intros; contradiction.
  - destruct (decide (newDescription <> EmptyString)) as [nd|nd].
    + destruct (validate.CheckTaskDescription newDescription) as [e|] eqn:Hd.
      * left. exists e. split; [eapply CheckTaskDescription_kind; eassumption |].
        erewrite updateTask_description_err by (eauto; intros; contradiction).
        apply dec_stable in nt. case_decide; [reflexivity | contradiction].
      * right; right. exists p, t. split; [exact Hst |].
        eapply updateTask_ok; eauto. intros; contradiction.
    + right; right. exists p, t. split; [exact Hst |].
      eapply updateTask_ok; eauto; intros; contradiction.
Qed.

Lemma validation_not_missing e :
  Is e ErrValidation = true -> Is e ErrTaskNotFound = false.
Proof. destruct e as [[]|[]]; cbn; congruence. Qed.

(** X25. In a well-formed store the handler of PUT /tasks/{id} always
    answers, with 200, 400 or 404.  The path value is looked at first: when
    it is not a decimal int64 the answer is 400 "invalid task ID" whatever
    the body; then the body: when it does not decode the answer is 400
    "invalid request body"; then the store: when no task is stored under
    the ID the answer is 404.  In these three cases the state is
    untouched. *)
Theorem putTask_spec clock range w idStr body :
  wf w ->
  (exists resp w',
     putTask clock range idStr body w = (Ok resp, w') /\
     (delivery.code resp = 200 \/ delivery.code resp = 400 \/
      delivery.code resp = 404)) /\
  (strconv.ParseInt idStr = None ->
   putTask clock range idStr body w =
     (Ok (delivery.mkResponse 400 (delivery.Text "invalid task ID")), w)) /\
  (forall id, strconv.ParseInt idStr = Some id -> body = None ->
   putTask clock range idStr body w =
     (Ok (delivery.mkResponse 400 (delivery.Text "invalid request body")),
      w)) /\
  (forall id req,
     strconv.ParseInt idStr = Some id -> body = Some req ->
     tasks w !! id = None ->
     putTask clock range idStr body w =
       (Ok (delivery.mkResponse 404 (delivery.Text "task not found")), w)).
Proof.
  intros Hwf. unfold putTask, delivery.UpdateTask, delivery.try, uc.
  cbn [app_usecase.UpdateTask].
  destruct (strconv.ParseInt idStr) as [id|] eqn:Hparse.
  2: { split; [eexists; eexists; split; [reflexivity | cbn; auto] |].
       split; [reflexivity |]. split; intros; discriminate. }
  destruct body as [req|].
  2: { split; [eexists; eexists; split; [reflexivity | cbn; auto] |].
       split; [discriminate |]. split; [reflexivity |].
       intros; discriminate. }
  split; [| split; [discriminate | split; [intros; discriminate |]]].
  - destruct (updateTask_cases clock range w id (UpdateTaskRequest.Title req)
                (UpdateTaskRequest.Description req)
                (UpdateTaskRequest.Status req) Hwf)
      as [[_ ->] | [(e & Hk & ->) | [(p & t & e & _ & Hk & ->)
                                    | (p & t & _ & ->)]]].
    + eexists; eexists. split; [reflexivity |]. cbn. auto.
    + eexists; eexists. split; [reflexivity |].
      rewrite respondWithError_code, (validation_not_missing e Hk). auto.
    + eexists; eexists. split; [reflexivity |].
      rewrite respondWithError_code, (validation_not_missing e Hk). auto.
    + mstep. rewrite lookup_insert_eq.
      eexists; eexists. split; [reflexivity |]. cbn. auto.
  - intros id' req' ? ? Hid. simplify_eq.
    rewrite updateTask_absent by assumption. reflexivity.
Qed.

Lemma putTask_spec_witness :
  putTask demo_clock map_to_list "seven" None demo_world =
    (Ok (delivery.mkResponse 400 (delivery.Text "invalid task ID")),
     demo_world).
Proof.
  apply (proj1 (proj2 (putTask_spec demo_clock map_to_list demo_world "seven"
                         None demo_wf))).
  reflexivity.
Defined.

Lemma load_all_ok w ps :
  (forall p, In p ps -> is_Some (heap w !! p)) ->
  exists ts,
    delivery.load_all ps w = (Ok ts, w) /\
    Forall2 (fun p t => heap w !! p = Some t) ps ts.
Proof.
  induction ps as [|p ps IH]; intros Hall.
  - exists []. split; [reflexivity | constructor].
  - destruct (Hall p (or_introl eq_refl)) as [t Ht].
    destruct IH as (ts & Hrun & HF); [intros q Hq; apply Hall; now right |].
    exists (t :: ts). split; [| now constructor].
    cbn [delivery.load_all]. mstep. rewrite Ht, Hrun. reflexivity.
Qed.

Lemma Forall2_transfer {A B} (R : A -> B -> Prop) (P : B -> Prop) xs ys :
  Forall2 R xs ys ->
  (forall x y, In x xs -> R x y -> P y) ->
  Forall P ys.
Proof.
  induction 1 as [|x y xs ys Hxy HF IH]; intros Hall; constructor.
  - apply (Hall x y); [now left | assumption].
  - apply IH. intros a b Ha. apply Hall. now right.
Qed.

(** X26. In a well-formed store the handler of GET /tasks always answers
    200 and changes nothing: the body lists the tasks behind the pointers
    ListTasks returned, in the same order, so with the empty filter every
    stored task and with a filter only tasks of that status. *)
Theorem getTasks_spec clock range w status :
  range (tasks w) ≡ₚ map_to_list (tasks w) ->
  wf w ->
  exists ps ts,
    listTasks clock range status w = (Ok ps, w) /\
    getTasks clock range status w =
      (Ok (delivery.mkResponse 200 (delivery.JSONTasks ts)), w) /\
    Forall2 (fun p t => heap w !! p = Some t) ps ts /\
    List.length ts = List.length ps /\
    (status = EmptyString -> List.length ts = size (tasks w)) /\
    Forall (fun t => status = EmptyString \/ Status t = status) ts.
Proof.
  intros Hperm Hwf.
  assert (Hsound : forall id p,
            In (id, p) (range (tasks w)) -> tasks w !! id = Some p).
  { intros id p Hin. apply list_elem_of_In in Hin. rewrite Hperm in Hin.
    now apply elem_of_map_to_list in Hin. }
  assert (Hlist := listTasks_ok clock range status w).
  set (ps := List.filter (selected w status) (map snd (range (tasks w)))) in *.
  assert (Hps : listTasks clock range status w = (Ok ps, w)).
  { apply Hlist; [| exact Hsound].
    intros _ id p Hp. destruct (Hwf _ _ Hp) as (t & Ht & _). eauto. }
  assert (Hin : forall p, In p ps ->
            exists id, tasks w !! id = Some p /\ selected w status p = true).
  { intros p Hp. apply filter_In in Hp as [Hp Hsel].
    apply in_map_iff in Hp as ([id q] & Heq & Hq). cbn in Heq. subst q.
    exists id. split; [now apply Hsound | exact Hsel]. }
  destruct (load_all_ok w ps) as (ts & Hload & HF).
  { intros p Hp. destruct (Hin p Hp) as (id & Hid & _).
    destruct (Hwf _ _ Hid) as (t & Ht & _). eauto. }
  exists ps, ts. split; [exact Hps |]. split; [| split; [exact HF |]].
  - unfold getTasks, delivery.ListTasks, delivery.try, uc.
    cbn [app_usecase.ListTasks]. rewrite Hps. mstep. rewrite Hload.
    reflexivity.
  - assert (Hlen : List.length ts = List.length ps)
      by (symmetry; eapply Forall2_length; eassumption).
    split; [exact Hlen |]. split.
    + intros ->. rewrite Hlen. unfold ps.
      rewrite filter_all by (intros p; unfold selected; now case_decide).
      rewrite length_map, Hperm. apply length_map_to_list.
    + eapply Forall2_transfer; [exact HF |].
      intros p t Hp Hpt. destruct (Hin p Hp) as (id & _ & Hsel).
      now apply (selected_spec w status p t Hpt).
Qed.

Lemma getTasks_spec_witness :
  exists ps ts,
    listTasks demo_clock map_to_list StatusPending demo_world
      = (Ok ps, demo_world) /\
    getTasks demo_clock map_to_list StatusPending demo_world =
      (Ok (delivery.mkResponse 200 (delivery.JSONTasks ts)), demo_world) /\
    Forall2 (fun p t => heap demo_world !! p = Some t) ps ts /\
    List.length ts = List.length ps /\
    (StatusPending = EmptyString -> List.length ts = size (tasks demo_world)) /\
    Forall (fun t => StatusPending = EmptyString \/ Status t = StatusPending)
      ts.
Proof.
  apply (getTasks_spec demo_clock map_to_list demo_world StatusPending).
  - reflexivity.
  - exact demo_wf.
Defined.

(** X27. What the handler of POST /tasks answers to a rejected request.
    The checks run in a fixed order and the first that fails decides the
    text: an empty title, a title of fewer than 3 runes, a title of more
    than 200 runes, a title with a rune outside the alphabet, and, only
    when the title passes, a description of more than 5000 runes.  The
    answer is 400 with that text and the state is untouched. *)
Theorem postTasks_rejected clock range w title description :
  let answer msg :=
    postTasks clock range (Some (CreateTaskRequest.mk title description)) w =
      (Ok (delivery.mkResponse 400 (delivery.Text msg)), w) in
  (title = EmptyString ->
   answer "validation error: task title cannot be empty") /\
  (title <> EmptyString -> utf8.RuneCountInString title < 3 ->
   answer "validation error: task title must be at least 3 characters") /\
  (utf8.RuneCountInString title > 200 ->
   answer "validation error: task title cannot be longer than 200 characters")
  /\
  (3 <= utf8.RuneCountInString title <= 200 ->
   ~ Forall title_rune (utf8.runes title) ->
   answer "validation error: task title contains invalid characters") /\
  (validate.CheckTaskTitle title = None ->
   utf8.RuneCountInString description > 5000 ->
   answer
     "validation error: task description cannot be longer than 5000 characters").
Proof.
  cbv zeta.
  assert (Hrun : forall e,
    createTask clock range title description w = (Err e, w) ->
    Is e ErrValidation = true ->
    postTasks clock range (Some (CreateTaskRequest.mk title description)) w =
      (Ok (delivery.mkResponse 400 (delivery.Text (Error e))), w)).
  { intros e He Hk. unfold postTasks, delivery.CreateTask, delivery.try, uc.
    cbn [app_usecase.CreateTask CreateTaskRequest.Title
         CreateTaskRequest.Description].
    rewrite He. unfold ret, delivery.respondWithError, delivery.http_Error.
    rewrite (validation_not_missing e Hk).
    destruct e as [[]|[]]; cbn in Hk; try discriminate; reflexivity. }
  assert (Htitle : forall e,
    validate.CheckTaskTitle title = Some e ->
    postTasks clock range (Some (CreateTaskRequest.mk title description)) w =
      (Ok (delivery.mkResponse 400 (delivery.Text (Error e))), w)).
  { intros e He. apply Hrun.
    - now apply createTask_title_err.
    - eapply CheckTaskTitle_kind; eassumption. }
  unfold validate.CheckTaskTitle, validate.MinTaskTitleLength,
    validate.MaxTaskTitleLength in Htitle.
  split; [| split; [| split; [| split]]].
  - intros ->. apply (Htitle _ eq_refl).
  - intros Hne Hshort.
    apply (Htitle (Wrapf ErrValidation
                     "task title must be at least 3 characters")).
    case_decide; [contradiction |].
    destruct (Z.ltb_spec (utf8.RuneCountInString title) 3); [reflexivity | lia].
  - intros Hlong.
    apply (Htitle (Wrapf ErrValidation
                     "task title cannot be longer than 200 characters")).
    case_decide as He.
    { subst title. change (utf8.RuneCountInString EmptyString) with 0 in Hlong.
      lia. }
    destruct (Z.ltb_spec (utf8.RuneCountInString title) 3); [lia |].
    destruct (Z.gtb_spec (utf8.RuneCountInString title) 200);
      [reflexivity | lia].
  - intros Hlen Hbad.
    apply (Htitle (Wrapf ErrValidation
                     "task title contains invalid characters")).
    case_decide as He.
    { subst title. change (utf8.RuneCountInString EmptyString) with 0 in Hlen.
      lia. }
    destruct (Z.ltb_spec (utf8.RuneCountInString title) 3); [lia |].
    destruct (Z.gtb_spec (utf8.RuneCountInString title) 200); [lia |].
    destruct (validate.taskTitleRegex_MatchString title) eqn:Hm;
      [| reflexivity].
    exfalso. apply Hbad. unfold validate.taskTitleRegex_MatchString in Hm.
    destruct (utf8.runes title) as [|r rs] eqn:Hr; [discriminate |].
    apply List.Forall_forall. exact (proj1 (forallb_forall _ _) Hm).
  - intros Hok Hlong.
    apply (Hrun (Wrapf ErrValidation
             "task description cannot be longer than 5000 characters")).
    + apply createTask_description_err; [assumption |].
      unfold validate.CheckTaskDescription, validate.MaxTaskDescriptionLength.
      destruct (Z.gtb_spec (utf8.RuneCountInString description) 5000);
        [reflexivity | lia].
    + reflexivity.
Qed.

Lemma postTasks_rejected_witness :
  postTasks demo_clock map_to_list
    (Some (CreateTaskRequest.mk "ab" "two runes only")) demo_world =
    (Ok (delivery.mkResponse 400
           (delivery.Text
              "validation error: task title must be at least 3 characters")),
     demo_world).
Proof.
  apply (proj1 (proj2 (postTasks_rejected demo_clock map_to_list demo_world
                         "ab" "two runes only"))).
  - discriminate.
  - vm_compute. reflexivity.
Defined.

(** X28. The handler of PUT /tasks/{id}, given the path of a stored task
    and a body whose non-empty title and description pass their checks,
    answers 200 with the merged task: each empty field of the body keeps
    the stored value, CreatedAt is kept, and GET on the same path then
    returns that same task. *)
Theorem putTask_merges clock range w idStr id p t req :
  strconv.ParseInt idStr = Some id ->
  stored w id p t -> ID t = id ->
  (UpdateTaskRequest.Title req <> EmptyString ->
   validate.CheckTaskTitle (UpdateTaskRequest.Title req) = None) ->
  (UpdateTaskRequest.Description req <> EmptyString ->
   validate.CheckTaskDescription (UpdateTaskRequest.Description req) = None) ->
  exists w' t',
    putTask clock range idStr (Some req) w =
      (Ok (delivery.mkResponse 200 (delivery.JSONTask t')), w') /\
    getTaskByPath clock range idStr w' =
      (Ok (delivery.mkResponse 200 (delivery.JSONTask t')), w') /\
    ID t' = id /\ CreatedAt t' = CreatedAt t /\
    Title t' = (if decide (UpdateTaskRequest.Title req = EmptyString)
                then Title t else UpdateTaskRequest.Title req) /\
    Description t' =
      (if decide (UpdateTaskRequest.Description req = EmptyString)
       then Description t else UpdateTaskRequest.Description req) /\
    Status t' = (if decide (UpdateTaskRequest.Status req = EmptyString)
                 then Status t else UpdateTaskRequest.Status req).
Proof.
  intros Hparse Hst HID Ht Hd.
  unfold putTask, getTaskByPath, delivery.UpdateTask, delivery.GetTask,
    delivery.try, uc.
  cbn [app_usecase.UpdateTask app_usecase.GetTask]. rewrite Hparse.
  erewrite updateTask_ok by eassumption.
  mstep. rewrite lookup_insert_eq.
  eexists; eexists. split; [reflexivity |].
  erewrite getTask_found by (cbn [tasks]; apply Hst).
  mstep. rewrite lookup_insert_eq.
  split; [reflexivity |]. unfold merged. cbn.
  repeat split; try reflexivity. exact HID.
Qed.

Lemma putTask_merges_witness :
  exists w' t',
    putTask demo_clock map_to_list "7"
      (Some (UpdateTaskRequest.mk EmptyString "Second draft" EmptyString))
      demo_world =
      (Ok (delivery.mkResponse 200 (delivery.JSONTask t')), w') /\
    getTaskByPath demo_clock map_to_list "7" w' =
      (Ok (delivery.mkResponse 200 (delivery.JSONTask t')), w') /\
    ID t' = 7 /\ CreatedAt t' = CreatedAt demo_task /\
    Title t' = Title demo_task /\
    Description t' = "Second draft" /\
    Status t' = Status demo_task.
Proof.
  apply (putTask_merges demo_clock map_to_list demo_world "7" 7 1%positive
           demo_task
           (UpdateTaskRequest.mk EmptyString "Second draft" EmptyString)).
  - reflexivity.
  - exact demo_stored.
  - reflexivity.
  - intros H. exfalso. apply H. reflexivity.
  - intros _. reflexivity.
Defined.

(** X29. The handler of POST /tasks, given a body whose title and
    description pass their checks while the clock-derived ID is not
    negative, answers 201 with the created task: it carries the title and
    description of the body, status pending, equal CreatedAt and UpdatedAt
    and the clock-derived ID; and GET on any path value that parses to that
    ID then answers 200 with the same task. *)
Theorem postTasks_then_get clock range w title description :
  validate.CheckTaskTitle title = None ->
  validate.CheckTaskDescription description = None ->
  0 <= next_id clock w ->
  exists w' t,
    postTasks clock range (Some (CreateTaskRequest.mk title description)) w =
      (Ok (delivery.mkResponse 201 (delivery.JSONTask t)), w') /\
    ID t = next_id clock w /\
    Title t = title /\ Description t = description /\
    Status t = StatusPending /\ CreatedAt t = UpdatedAt t /\
    forall idStr,
      strconv.ParseInt idStr = Some (ID t) ->
      getTaskByPath clock range idStr w' =
        (Ok (delivery.mkResponse 200 (delivery.JSONTask t)), w').
Proof.
  intros H1 H2 Hid.
  unfold postTasks, getTaskByPath, delivery.CreateTask, delivery.GetTask,
    delivery.try, uc.
  cbn [app_usecase.CreateTask app_usecase.GetTask CreateTaskRequest.Title
       CreateTaskRequest.Description].
  rewrite createTask_ok by assumption.
  mstep. rewrite lookup_insert_eq.
  eexists; eexists. split; [reflexivity |]. cbn [ID Title Description Status
    CreatedAt UpdatedAt].
  repeat split; try reflexivity.
  intros idStr ->.
  erewrite getTask_found by (cbn [tasks]; apply lookup_insert_eq).
  mstep. rewrite lookup_insert_eq. reflexivity.
Qed.

Lemma postTasks_then_get_witness :
  exists w' t,
    postTasks demo_clock map_to_list
      (Some (CreateTaskRequest.mk "Buy milk" EmptyString)) demo_world =
      (Ok (delivery.mkResponse 201 (delivery.JSONTask t)), w') /\
    ID t = next_id demo_clock demo_world /\
    Title t = "Buy milk" /\ Description t = EmptyString /\
    Status t = StatusPending /\ CreatedAt t = UpdatedAt t /\
    forall idStr,
      strconv.ParseInt idStr = Some (ID t) ->
      getTaskByPath demo_clock map_to_list idStr w' =
        (Ok (delivery.mkResponse 200 (delivery.JSONTask t)), w').
Proof.
  apply (postTasks_then_get demo_clock map_to_list demo_world "Buy milk"
           EmptyString).
  - reflexivity.
  - reflexivity.
  - vm_compute. discriminate.
Defined.
